(** * fix-curseforge: the manifest transform, the archive writer and the
      replacement coordinator of [fix-curseforge.py], embedded and verified.

    The development follows the script top-down.  Definitions:
    - [Json]        the documents that [json.load] produces, with Python's
                    [==] on them ([py_eq]);
    - [Transform]   [modify_manifest]: the loop that removes entries from the
                    live [files] list while iterating over it;
    - [Archive]     [rezip_directory]: [os.walk] over a directory tree;
    - [Coordinator] [main]: the extract / edit / rebuild / replace pipeline as
                    a state-passing function over a small file-system state;
    - [Taxonomy]    the error kinds, stated on the data flow of a run;
    - [Samples]     concrete inputs.
    Results: [JsonFacts], [TransformFacts], [ArchiveFacts] and
    [CoordinatorFacts]. *)

From Equations Require Import Equations.
From Stdlib Require Import Bool String Ascii.
From Stdlib Require Import List FinFun Arith ZArith QArith Lia.
Import ListNotations.

Local Open Scope string_scope.
Local Open Scope list_scope.

(* ===================================================================== *)
(** ** Python values obtained from [json.load]                            *)
(* ===================================================================== *)

Module Json.

(** A Python [float].  [json.load] yields the three non-finite constants for
    the tokens [NaN], [Infinity] and [-Infinity]; a finite double is the dyadic
    rational [m * 2^e]; negative zero is kept apart from [FFin 0 _] because it
    prints differently. *)
Inductive pyfloat : Type :=
| FNaN
| FInf (negative : bool)
| FNegZero
| FFin (m e : Z).

Unset Elimination Schemes.
Inductive json : Type :=
| JNull
| JBool (b : bool)
| JInt (n : Z)
| JFloat (f : pyfloat)
| JStr (s : string)
| JArr (items : list json)
| JObj (fields : list (string * json)).
Set Elimination Schemes.

(** The numeric reading of a value: [bool] is a subclass of [int], and
    [int]/[float] comparisons are exact. *)
Inductive number : Type :=
| NFin (q : Q)
| NInf (negative : bool)
| NNaN.

Definition float_number (f : pyfloat) : number :=
  match f with
  | FNaN => NNaN
  | FInf s => NInf s
  | FNegZero => NFin 0
  | FFin m e => NFin (inject_Z m * Qpower 2 e)
  end.

Definition number_of (v : json) : option number :=
  match v with
  | JBool b => Some (NFin (if b then 1 else 0))
  | JInt n => Some (NFin (inject_Z n))
  | JFloat f => Some (float_number f)
  | _ => None
  end.

(** [NaN] compares equal to itself here: every [NaN] of a loaded document is
    the one object [json.decoder.NaN], and the container comparisons that use
    this function ([list.remove], [in], [dict.__eq__], [list.__eq__]) test
    identity before [==]. *)
Definition number_eqb (x y : number) : bool :=
  match x, y with
  | NFin p, NFin q => Qeq_bool p q
  | NInf s, NInf t => Bool.eqb s t
  | NNaN, NNaN => true
  | _, _ => false
  end.

(** [dict.get]/[dict.__getitem__] on the insertion-ordered field list. *)
Fixpoint dict_get (k : string) (o : list (string * json)) : option json :=
  match o with
  | [] => None
  | (k', v) :: rest => if String.eqb k' k then Some v else dict_get k rest
  end.

(** [d[k] = v] for a key that is already present: the key keeps its place. *)
Fixpoint dict_set (k : string) (v : json) (o : list (string * json))
  : list (string * json) :=
  match o with
  | [] => [(k, v)]
  | (k', v') :: rest =>
      if String.eqb k' k then (k', v) :: rest else (k', v') :: dict_set k v rest
  end.

(** Python's [a == b] as the containers apply it.  Dictionaries: same size,
    and every key of [a] is bound in [b] to an equal value (order is
    irrelevant).  Lists: same length and pointwise equal. *)
Fixpoint py_eq (a b : json) {struct a} : bool :=
  match a, b with
  | JNull, JNull => true
  | JStr s, JStr t => String.eqb s t
  | JArr l, JArr l' =>
      (fix list_eq (xs ys : list json) {struct xs} : bool :=
         match xs, ys with
         | [], [] => true
         | x :: xs', y :: ys' => py_eq x y && list_eq xs' ys'
         | _, _ => false
         end) l l'
  | JObj o, JObj o' =>
      Nat.eqb (length o) (length o')
      && forallb (fun kv =>
                    match dict_get (fst kv) o' with
                    | Some v' => py_eq (snd kv) v'
                    | None => false
                    end) o
  | _, _ =>
      match number_of a, number_of b with
      | Some x, Some y => number_eqb x y
      | _, _ => false
      end
  end.

(** A document as Python can hold it: the keys of every dictionary are
    pairwise distinct. *)
Fixpoint wf (v : json) : Prop :=
  match v with
  | JArr l => (fix all (xs : list json) : Prop :=
                 match xs with [] => True | x :: xs' => wf x /\ all xs' end) l
  | JObj o => NoDup (map fst o)
              /\ (fix all (xs : list (string * json)) : Prop :=
                    match xs with
                    | [] => True
                    | kv :: xs' => wf (snd kv) /\ all xs'
                    end) o
  | _ => True
  end.

End Json.
Import Json.

(* ===================================================================== *)
(** ** The manifest transform                                             *)
(* ===================================================================== *)

Module Transform.

Local Open Scope nat_scope.

(** The exceptions the transform can raise. *)
Inductive py_error : Type :=
| KeyError
| TypeError
| AttributeError
| ValueError.

Inductive result (A : Type) : Type :=
| Ok (a : A)
| Raise (e : py_error).
Arguments Ok {A} a.
Arguments Raise {A} e.

Definition PROJECTS_TO_REMOVE : list Z := [890127; 889079; 406463]%Z.

(** [file.get("projectID")]: [None] (the value of JSON [null]) when absent. *)
Definition get_projectID (o : list (string * json)) : json :=
  match dict_get "projectID" o with
  | Some v => v
  | None => JNull
  end.

(** [x in denylist] for a list of [int]s. *)
Definition py_in (x : json) (denylist : list Z) : bool :=
  existsb (fun d => py_eq (JInt d) x) denylist.

(** [l.remove(x)]: drops the first item equal to [x]; [None] stands for the
    [ValueError] raised when there is none. *)
Fixpoint list_remove (x : json) (l : list json) : option (list json) :=
  match l with
  | [] => None
  | y :: ys => if py_eq y x then Some ys
               else option_map (cons y) (list_remove x ys)
  end.

(** The [for file in manifest["files"]] loop.  The list iterator keeps an
    index [i] into the live list [l]: it stops when [i] reaches the current
    length, and otherwise hands out [l[i]] and moves to [i + 1], whatever the
    body did to [l] in between.  The diagnostic [print] is not modelled. *)
Definition inspect {A : Type} (a : A) : {b : A | a = b} := exist _ a eq_refl.

Equations? remove_loop (denylist : list Z) (i : nat) (l : list json)
  : result (list json) by wf (length l - i) lt :=
  remove_loop denylist i l with inspect (nth_error l i) := {
    | exist _ None _ => Ok l
    | exist _ (Some (JObj o)) Hi
        with inspect (py_in (get_projectID o) denylist) := {
        | exist _ false _ => remove_loop denylist (S i) l
        | exist _ true _ with inspect (list_remove (JObj o) l) := {
            | exist _ (Some l') Hr => remove_loop denylist (S i) l'
            | exist _ None _ => Raise ValueError } }
    | exist _ (Some _) _ => Raise AttributeError }.
Proof.
  - assert (i < length l) by (apply nth_error_Some; congruence).
    assert (length l = S (length l')); [|lia].
    clear - Hr. revert l' Hr.
    induction l as [|y ys IH]; simpl; intros l' Hr; [discriminate|].
    destruct (py_eq y (JObj o)); [now inversion Hr|].
    destruct (list_remove (JObj o) ys) as [r|]; simpl in Hr; [|discriminate].
    inversion Hr; subst; simpl. now rewrite (IH r eq_refl).
  - assert (i < length l) by (apply nth_error_Some; congruence). lia.
Qed.

(** [modify_manifest] for an arbitrary denylist.  [manifest["files"]] raises
    [TypeError] unless [manifest] is a dictionary and [KeyError] when the key
    is absent.  Iterating a dictionary or a string hands out strings, which
    have no [get]; [None], numbers and booleans are not iterable.  The
    removals happen inside the list bound to ["files"], so the returned
    document is the argument with that binding updated in place. *)
Definition modify_manifest_with (denylist : list Z) (manifest : json)
  : result json :=
  match manifest with
  | JObj fields =>
      match dict_get "files" fields with
      | None => Raise KeyError
      | Some (JArr l) =>
          match remove_loop denylist 0 l with
          | Ok l' => Ok (JObj (dict_set "files" (JArr l') fields))
          | Raise e => Raise e
          end
      | Some (JObj []) => Ok manifest
      | Some (JStr EmptyString) => Ok manifest
      | Some (JObj (_ :: _)) => Raise AttributeError
      | Some (JStr (String _ _)) => Raise AttributeError
      | Some _ => Raise TypeError
      end
  | _ => Raise TypeError
  end.

Definition modify_manifest : json -> result json :=
  modify_manifest_with PROJECTS_TO_REMOVE.

(** Reading a document. *)
Definition files_of (manifest : json) : option (list json) :=
  match manifest with
  | JObj fields =>
      match dict_get "files" fields with
      | Some (JArr l) => Some l
      | _ => None
      end
  | _ => None
  end.

Definition is_object (v : json) : bool :=
  match v with JObj _ => true | _ => false end.

(** [denied D e]: the test of line 43 on an entry. *)
Definition denied (denylist : list Z) (e : json) : bool :=
  match e with
  | JObj o => py_in (get_projectID o) denylist
  | _ => false
  end.

Definition lacks_projectID (e : json) : bool :=
  match e with
  | JObj o => match dict_get "projectID" o with None => true | Some _ => false end
  | _ => false
  end.

(** A manifest document whose [files] sequence is [l]: a JSON object with a
    field [files] bound to a sequence of JSON objects. *)
Definition entry_ok (e : json) : Prop := is_object e = true /\ wf e.

Definition manifest_document (m : json) (l : list json) : Prop :=
  files_of m = Some l /\ Forall entry_ok l.

(** The frame of an update of the top-level field [files]: same keys in the
    same order, and the same value under every other key. *)
Definition same_but_files (m m' : json) : Prop :=
  exists fields fields',
    m = JObj fields /\ m' = JObj fields'
    /\ Forall2 (fun kv kv' =>
                  fst kv = fst kv'
                  /\ (fst kv <> "files" -> snd kv = snd kv'))
               fields fields'.

Definition entry (pid : Z) : json := JObj [("projectID", JInt pid)].

Definition manifest_of (l : list json) : json :=
  JObj [("name", JStr "GameNight"); ("files", JArr l); ("version", JStr "3.0.0")].

End Transform.
Import Transform.


(* ===================================================================== *)
(** ** The archive writer                                                 *)
(* ===================================================================== *)

Module Archive.

Definition bytes : Type := string.

(** A path is the list of its components, relative to some root. *)
Definition path : Type := list string.

Unset Elimination Schemes.
Inductive node : Type :=
| File (content : bytes)
| Dir (entries : list (string * node)).
Set Elimination Schemes.

(** The entries of a directory, in the order [os.scandir] reports them. *)
Definition directory : Type := list (string * node).

(** An archive: its members in the order they were added. *)
Definition archive : Type := list (string * bytes).

Definition is_dir (e : string * node) : bool :=
  match snd e with Dir _ => true | File _ => false end.

Definition dirnames (d : directory) : list string :=
  map fst (filter is_dir d).

Definition filenames (d : directory) : list string :=
  map fst (filter (fun e => negb (is_dir e)) d).

Fixpoint find_entry (name : string) (d : directory) : option node :=
  match d with
  | [] => None
  | (n, x) :: rest => if String.eqb n name then Some x else find_entry name rest
  end.

(** Path resolution below a node. *)
Fixpoint resolve (n : node) (p : path) : option node :=
  match p with
  | [] => Some n
  | c :: p' =>
      match n with
      | Dir d => match find_entry c d with
                 | Some n' => resolve n' p'
                 | None => None
                 end
      | File _ => None
      end
  end.

Definition read_file (top : node) (p : path) : option bytes :=
  match resolve top p with
  | Some (File c) => Some c
  | _ => None
  end.

(** [os.walk(top)], top-down: one triple
    [(root, dirs, files)] per directory, a directory before its
    sub-directories.  [root] is kept relative to [top].  A tree holds files
    and directories only: [extractall] creates no links. *)
Fixpoint walk (root : path) (n : node) {struct n}
  : list (path * list string * list string) :=
  match n with
  | File _ => []
  | Dir d =>
      (root, dirnames d, filenames d)
        :: flat_map (fun e => walk (root ++ [fst e]) (snd e)) d
  end.

(** [PurePath.as_posix] of a relative path. *)
Definition as_posix (p : path) : string := String.concat "/" p.

(** What [as_posix] appends after the first component of a path. *)
Definition posix_tail (p : path) : string :=
  match p with
  | [] => ""
  | _ :: _ => String "/"%char (as_posix p)
  end.

(** The outcome of filling an archive: complete, or interrupted by an
    exception with the members written so far. *)
Inductive zip_result : Type :=
| Built (zf : archive)
| Interrupted (zf : archive).

(** The inner loop [for file in files: zf.write(fpath, arcname.as_posix())].
    [zf.write] reads the file at [fpath = root / file] and appends a member
    named by the path relative to the source directory. *)
Fixpoint write_files (top : node) (root : path) (files : list string)
  (zf : archive) : zip_result :=
  match files with
  | [] => Built zf
  | file :: rest =>
      let fpath := root ++ [file] in
      match read_file top fpath with
      | Some content =>
          write_files top root rest (zf ++ [(as_posix fpath, content)])
      | None => Interrupted zf
      end
  end.

(** The outer loop [for root, dirs, files in os.walk(src_dir)]. *)
Fixpoint write_walk (top : node)
  (steps : list (path * list string * list string)) (zf : archive)
  : zip_result :=
  match steps with
  | [] => Built zf
  | (root, _, files) :: rest =>
      match write_files top root files zf with
      | Built zf' => write_walk top rest zf'
      | Interrupted zf' => Interrupted zf'
      end
  end.

(** [rezip_directory(src_dir, dst_zip)], as the members of the new archive. *)
Definition rezip_directory (src_dir : directory) : zip_result :=
  write_walk (Dir src_dir) (walk [] (Dir src_dir)) [].

(** A directory tree as a file system holds it: within one directory the
    names are pairwise distinct, and a name is not empty and has no
    separator in it. *)
Fixpoint has_sep (s : string) : bool :=
  match s with
  | EmptyString => false
  | String c rest => Ascii.eqb c "/"%char || has_sep rest
  end.

Definition valid_name (s : string) : Prop := s <> "" /\ has_sep s = false.

Fixpoint tree_ok (n : node) : Prop :=
  match n with
  | File _ => True
  | Dir d =>
      NoDup (map fst d)
      /\ (fix all (es : list (string * node)) : Prop :=
            match es with
            | [] => True
            | e :: es' => (valid_name (fst e) /\ tree_ok (snd e)) /\ all es'
            end) d
  end.

(** The files below a node, by path relative to it: those of the directory
    itself first, then those of each entry in turn. *)
Fixpoint rel_files (n : node) : list path :=
  match n with
  | File _ => []
  | Dir d =>
      map (fun f => [f]) (filenames d)
        ++ flat_map (fun e => map (cons (fst e)) (rel_files (snd e))) d
  end.

(** The paths [root / file] that the two loops of [rezip_directory] visit. *)
Definition step_paths (steps : list (path * list string * list string))
  : list path :=
  flat_map (fun st => map (fun f => fst (fst st) ++ [f]) (snd st)) steps.

(** Member [e] of an archive stands for the file at [p] below [top]. *)
Definition member_of (top : node) (p : path) (e : string * bytes) : Prop :=
  fst e = as_posix p /\ read_file top p = Some (snd e).

End Archive.
Import Archive.

(* ===================================================================== *)
(** ** The replacement coordinator                                        *)
(* ===================================================================== *)

Module Coordinator.

(** *** pathlib *)

(** [name.rfind('.')], as the split of [name] around its last dot: the part
    before it and the part from the dot on. *)
Fixpoint rsplit_dot (name : string) : option (string * string) :=
  match name with
  | EmptyString => None
  | String c rest =>
      match rsplit_dot rest with
      | Some (stem, suf) => Some (String c stem, suf)
      | None => if Ascii.eqb c "."%char then Some (EmptyString, name) else None
      end
  end.

Definition path_name (p : path) : string := last p "".

(** [PurePath.suffix]: from the last dot of the name on, unless that dot is
    the first or the last character. *)
Definition name_suffix (name : string) : string :=
  match rsplit_dot name with
  | Some (stem, suf) =>
      if (0 <? String.length stem)%nat && (1 <? String.length suf)%nat
      then suf else ""
  | None => ""
  end.

Definition path_suffix (p : path) : string := name_suffix (path_name p).

Definition name_stem (name : string) : string :=
  match rsplit_dot name with
  | Some (stem, suf) =>
      if (0 <? String.length stem)%nat && (1 <? String.length suf)%nat
      then stem else name
  | None => name
  end.

Definition starts_with_dot (s : string) : bool :=
  match s with
  | String c _ => Ascii.eqb c "."%char
  | EmptyString => false
  end.

(** [PurePath.with_suffix]; [None] is its [ValueError]. *)
Definition with_suffix (p : path) (suffix : string) : option path :=
  if has_sep suffix then None
  else if (negb (String.eqb suffix "") && negb (starts_with_dot suffix))
          || String.eqb suffix "." then None
  else if String.eqb (path_name p) "" then None
  else Some (removelast p ++ [(name_stem (path_name p) ++ suffix)%string]).

(** [Path("./build/curseforge/GameNight-3.0.0.zip")]. *)
Definition DEFAULT_ZIP : path := ["build"; "curseforge"; "GameNight-3.0.0.zip"].

(** The sibling of [DEFAULT_ZIP] at which the new archive is built. *)
Definition NEW_ZIP : path := ["build"; "curseforge"; "GameNight-3.0.0.zip.new"].

Definition MANIFEST : string := "manifest.json".

(** *** The state the run acts on *)

(** [disk]: the files outside the working directory, by path; each path
    has its own content (no links).  [tmp]: the working directory that
    [tempfile.TemporaryDirectory] creates under a fresh name, [None] while it
    does not exist; its name being new, no path of [disk] lies below it. *)
Record fs : Type := mkfs {
  disk : path -> option bytes;
  tmp : option directory
}.

Definition disk_set (d : path -> option bytes) (p : path) (v : option bytes)
  : path -> option bytes :=
  fun q => if list_eq_dec string_dec q p then v else d q.

Fixpoint set_entry (name : string) (v : option bytes) (d : directory)
  : directory :=
  match d with
  | [] => match v with Some c => [(name, File c)] | None => [] end
  | (n, x) :: rest =>
      if String.eqb n name
      then match v with Some c => (n, File c) :: rest | None => rest end
      else (n, x) :: set_entry name v rest
  end.

(** *** Exceptions and the run monad *)

Inductive exn : Type :=
| BadZipFile
| FileNotFoundError
| OSError
| JSONDecodeError
| NotSerializable
| PathValueError
| TransformError (e : py_error).

Definition is_BadZipFile (e : exn) : bool :=
  match e with BadZipFile => true | _ => false end.

(** Every exception above derives from [Exception]. *)
Definition is_Exception (e : exn) : bool := true.

Inductive outcome (A : Type) : Type :=
| Return (a : A)
| Raised (e : exn)
| SysExit (status : Z).
Arguments Return {A} a.
Arguments Raised {A} e.
Arguments SysExit {A} status.

Definition M (A : Type) : Type := fs -> outcome A * fs.

Definition ret {A} (a : A) : M A := fun s => (Return a, s).

Definition bind {A B} (m : M A) (k : A -> M B) : M B :=
  fun s =>
    match m s with
    | (Return a, s') => k a s'
    | (Raised e, s') => (Raised e, s')
    | (SysExit n, s') => (SysExit n, s')
    end.

Notation "x <- m ;; k" := (bind m (fun x => k))
  (at level 61, m at next level, right associativity).
Notation "m ;;; k" := (bind m (fun _ => k))
  (at level 61, right associativity).

Definition raise {A} (e : exn) : M A := fun s => (Raised e, s).

(** [sys.exit(n)]: [SystemExit] is not an [Exception], so no handler of the
    script catches it. *)
Definition sys_exit {A} (n : Z) : M A := fun s => (SysExit n, s).

(** [try: m except <catches> as e: handler]. *)
Definition try_except {A} (m : M A) (catches : exn -> bool) (handler : M A)
  : M A :=
  fun s =>
    match m s with
    | (Raised e, s') => if catches e then handler s' else (Raised e, s')
    | r => r
    end.

(** [with tempfile.TemporaryDirectory(...) as tmpdir: body]: the directory
    is created empty, and [__exit__] removes it however [body] ends. *)
Definition with_temporary_directory {A} (body : M A) : M A :=
  fun s =>
    let (r, s') := body (mkfs (disk s) (Some [])) in
    (r, mkfs (disk s') None).

(** The status the run hands to the interpreter: [0] after a normal return,
    the argument of [sys.exit], and [1] after an uncaught exception.  It is
    the status of the process when the interpreter can flush the standard
    streams as it shuts down; see [process_status]. *)
Definition exit_status {A} (r : outcome A) : Z :=
  match r with
  | Return _ => 0
  | SysExit n => n
  | Raised _ => 1
  end.

(** The status of the process.  The interpreter flushes [stdout] and
    [stderr] as it shuts down; when that fails ([flushed = false], as with
    buffered messages and a full device) it ends with 120, whatever the run
    did.  The writing of the messages themselves is not modelled. *)
Definition process_status {A} (flushed : bool) (r : outcome A) : Z :=
  if flushed then exit_status r else 120.

(** *** The library the script calls, and the faults of the environment *)

(** [zip_extractall]: what [ZipFile(path, "r").extractall(tmpdir)] leaves in
    the directory for the bytes of an archive, and the exception it ends
    with, if any.  [json_load] and [json_dumps]: [None] when they raise.
    [zip_bytes]: the bytes of an archive with the given members. *)
Record library : Type := {
  zip_extractall : bytes -> directory * option exn;
  json_load : bytes -> option json;
  json_dumps : json -> option string;
  zip_bytes : archive -> bytes
}.

(** Input/output faults.  [Some leftover]: the write raises [OSError] and
    leaves [leftover] at its target. *)
Record faults : Type := {
  manifest_write_fault : option (option bytes);
  archive_write_fault : option (option bytes);
  replace_fault : bool
}.

(** A transform, as the caller sees it: the state of the argument object
    after the call, and the object returned. *)
Definition transform : Type := json -> result (json * json).

(** [modify_manifest] edits its argument and returns that same object. *)
Definition builtin_transform : transform :=
  fun manifest =>
    match modify_manifest manifest with
    | Ok m => Ok (m, m)
    | Raise e => Raise e
    end.

Section Run.

Variable lib : library.
Variable flt : faults.
Variable modify : transform.

Definition path_exists (p : path) : M bool :=
  fun s => (Return (match disk s p with Some _ => true | None => false end), s).

(** [with zipfile.ZipFile(zip_path, "r") as zf: zf.extractall(tmpdir)]. *)
Definition extractall (zip_path : path) : M unit :=
  fun s =>
    match disk s zip_path with
    | None => (Raised FileNotFoundError, s)
    | Some b =>
        match zip_extractall lib b with
        | (d, None) => (Return tt, mkfs (disk s) (Some d))
        | (d, Some e) => (Raised e, mkfs (disk s) (Some d))
        end
    end.

(** [manifest_path.open("r")] followed by reading the whole file. *)
Definition read_manifest : M bytes :=
  fun s =>
    match tmp s with
    | Some d =>
        match find_entry MANIFEST d with
        | Some (File c) => (Return c, s)
        | Some (Dir _) => (Raised OSError, s)
        | None => (Raised FileNotFoundError, s)
        end
    | None => (Raised FileNotFoundError, s)
    end.

Definition load (content : bytes) : M json :=
  match json_load lib content with
  | Some doc => ret doc
  | None => raise JSONDecodeError
  end.

(** [modify_manifest(manifest)] as a statement: the value returned is
    dropped, and [manifest] stays bound to the argument object. *)
Definition call_modify (manifest : json) : M json :=
  match modify manifest with
  | Ok (manifest', _) => ret manifest'
  | Raise e => raise (TransformError e)
  end.

Definition dumps (doc : json) : M string :=
  match json_dumps lib doc with
  | Some str => ret str
  | None => raise NotSerializable
  end.

(** [manifest_path.open("w")], [fh.write(json_str)], [fh.write("\n")]. *)
Definition write_manifest (json_str : string) : M unit :=
  fun s =>
    let d := match tmp s with Some d => d | None => [] end in
    match manifest_write_fault flt with
    | Some leftover =>
        (Raised OSError, mkfs (disk s) (Some (set_entry MANIFEST leftover d)))
    | None =>
        let text := (json_str ++ String "010"%char EmptyString)%string in
        (Return tt, mkfs (disk s) (Some (set_entry MANIFEST (Some text) d)))
    end.

(** [rezip_directory(tmpdir_path, dst_zip)] on the state: the archive is
    written at [dst_zip].  When a member cannot be read the archive is closed
    with the members written so far. *)
Definition rezip (dst_zip : path) : M unit :=
  fun s =>
    let d := match tmp s with Some d => d | None => [] end in
    match archive_write_fault flt with
    | Some leftover =>
        (Raised OSError, mkfs (disk_set (disk s) dst_zip leftover) (tmp s))
    | None =>
        match rezip_directory d with
        | Built zf =>
            (Return tt,
             mkfs (disk_set (disk s) dst_zip (Some (zip_bytes lib zf))) (tmp s))
        | Interrupted zf =>
            (Raised FileNotFoundError,
             mkfs (disk_set (disk s) dst_zip (Some (zip_bytes lib zf))) (tmp s))
        end
    end.

(** [os.replace(src, dst)]: all or nothing. *)
Definition os_replace (src dst : path) : M unit :=
  fun s =>
    if replace_fault flt then (Raised OSError, s)
    else match disk s src with
         | None => (Raised FileNotFoundError, s)
         | Some b =>
             (Return tt,
              mkfs (disk_set (disk_set (disk s) dst (Some b)) src None) (tmp s))
         end.

Definition new_path (zip_path : path) : M path :=
  match with_suffix zip_path (path_suffix zip_path ++ ".new")%string with
  | Some p => ret p
  | None => raise PathValueError
  end.

(** [main()].  The progress messages are not modelled. *)
Definition main : M unit :=
  let zip_path := DEFAULT_ZIP in
  present <- path_exists zip_path ;;
  (if negb present then sys_exit 1 else ret tt) ;;;
  with_temporary_directory (
    try_except (extractall zip_path) is_BadZipFile (sys_exit 3) ;;;
    manifest <- try_except (content <- read_manifest ;; load content)
                           is_Exception (sys_exit 5) ;;
    manifest <- call_modify manifest ;;
    json_str <- try_except (dumps manifest) is_Exception (sys_exit 8) ;;
    try_except (write_manifest json_str) is_Exception (sys_exit 9) ;;;
    new_zip_path <- new_path zip_path ;;
    try_except (rezip new_zip_path) is_Exception (sys_exit 11) ;;;
    try_except (os_replace new_zip_path zip_path) is_Exception (sys_exit 12) ;;;
    ret tt).

End Run.

End Coordinator.
Import Coordinator.

(* ===================================================================== *)
(** ** The error taxonomy, stated on the data flow                        *)
(* ===================================================================== *)

Module Taxonomy.

Inductive error_kind : Type :=
| ArchiveNotFound
| CorruptArchive
| MissingManifest
| InvalidManifest
| SerializationError
| ManifestWriteError
| ArchiveBuildError
| SwapError.

Definition obind {A B} (x : option A) (k : A -> option B) : option B :=
  match x with Some a => k a | None => None end.

Section Stages.

Variable lib : library.
Variable flt : faults.
Variable modify : transform.

(** The data flow of a run from a state [s], stage by stage: archive bytes,
    extracted files, manifest text, loaded document, edited document,
    serialized text, rewritten working tree, new archive bytes.  Each stage
    is [None] when it or an earlier one failed. *)
Definition extracted (s : fs) : option directory :=
  obind (disk s DEFAULT_ZIP) (fun b =>
    match zip_extractall lib b with
    | (d, None) => Some d
    | (_, Some _) => None
    end).

Definition manifest_text (s : fs) : option bytes :=
  obind (extracted s) (fun d =>
    match find_entry MANIFEST d with
    | Some (File c) => Some c
    | _ => None
    end).

Definition loaded (s : fs) : option json :=
  obind (manifest_text s) (json_load lib).

Definition edited (s : fs) : option json :=
  obind (loaded s) (fun m =>
    match modify m with
    | Ok (m', _) => Some m'
    | Raise _ => None
    end).

Definition serialized (s : fs) : option string :=
  obind (edited s) (json_dumps lib).

Definition rewritten (s : fs) : option directory :=
  obind (serialized s) (fun str =>
    obind (extracted s) (fun d =>
      match manifest_write_fault flt with
      | Some _ => None
      | None =>
          Some (set_entry MANIFEST
                  (Some (str ++ String "010"%char EmptyString)%string) d)
      end)).

Definition rebuilt (s : fs) : option bytes :=
  obind (rewritten s) (fun d =>
    match archive_write_fault flt, rezip_directory d with
    | None, Built zf => Some (zip_bytes lib zf)
    | _, _ => None
    end).

(** When each kind of error is the one a run from [s] meets.
    [CorruptArchive] is the damage that [zipfile] reports as [BadZipFile],
    the one exception the extraction step handles; an extraction that ends
    with any other exception is [unhandled_extraction] below, and belongs to
    no kind. *)
Definition occurs (k : error_kind) (s : fs) : Prop :=
  match k with
  | ArchiveNotFound => disk s DEFAULT_ZIP = None
  | CorruptArchive =>
      exists b d, disk s DEFAULT_ZIP = Some b
                  /\ zip_extractall lib b = (d, Some BadZipFile)
  | MissingManifest =>
      exists d, extracted s = Some d /\ find_entry MANIFEST d = None
  | InvalidManifest =>
      exists c, manifest_text s = Some c /\ json_load lib c = None
  | SerializationError =>
      exists m, edited s = Some m /\ json_dumps lib m = None
  | ManifestWriteError =>
      serialized s <> None /\ manifest_write_fault flt <> None
  | ArchiveBuildError =>
      rewritten s <> None /\ rebuilt s = None
  | SwapError =>
      rebuilt s <> None /\ replace_fault flt = true
  end.

(** The archive is there, and extracting it ends with an exception other
    than [BadZipFile] (a damaged member can give [zlib.error],
    [NotImplementedError], [OSError], ...). *)
Definition unhandled_extraction (s : fs) : Prop :=
  exists b d e,
    disk s DEFAULT_ZIP = Some b
    /\ zip_extractall lib b = (d, Some e)
    /\ is_BadZipFile e = false.

End Stages.

(** The statuses of the [sys.exit] calls of [main], by kind. *)
Definition status_of (k : error_kind) : Z :=
  match k with
  | ArchiveNotFound => 1
  | CorruptArchive => 3
  | MissingManifest => 5
  | InvalidManifest => 5
  | SerializationError => 8
  | ManifestWriteError => 9
  | ArchiveBuildError => 11
  | SwapError => 12
  end.

End Taxonomy.
Import Taxonomy.

(* ===================================================================== *)
(** ** Sample inputs                                                      *)
(* ===================================================================== *)

Module Samples.

Definition sample_tree : directory :=
  [("manifest.json", File "{}");
   ("overrides", Dir [("config", Dir [("a.cfg", File "x")]);
                      ("b.txt", File "y")])].


(** A library and a state to run the script on. *)
Definition toy_library : library := {|
  zip_extractall := fun b =>
    if String.eqb b "not a zip" then ([], Some BadZipFile)
    else if String.eqb b "no manifest" then ([("readme.txt", File "hi")], None)
    else ([(MANIFEST, File b); ("readme.txt", File "hi")], None);
  json_load := fun c =>
    if String.eqb c "doc" then Some (manifest_of [entry 890127; entry 5])
    else None;
  json_dumps := fun m =>
    match files_of m with
    | Some l => Some (String.concat "," (map (fun _ => "entry") l))
    | None => None
    end;
  zip_bytes := fun zf =>
    String.concat ";" (map (fun e => (fst e ++ "=" ++ snd e)%string) zf)
|}.

Definition nl : string := String "010"%char EmptyString.

Definition no_faults : faults := {|
  manifest_write_fault := None;
  archive_write_fault := None;
  replace_fault := false
|}.

Definition rebuild_fault : faults := {|
  manifest_write_fault := None;
  archive_write_fault := Some (Some "PK-truncated");
  replace_fault := false
|}.

Definition state_with (b : bytes) : fs :=
  mkfs (fun p => if list_eq_dec string_dec p DEFAULT_ZIP then Some b else None)
       None.

(** A transform result: the manifest without its entries. *)
Definition without_files (m : json) : json := JObj [("files", JArr [])].

End Samples.
Import Samples.

(* ===================================================================== *)
(** ** Notions used to state further properties                           *)
(* ===================================================================== *)

Module Notions.

(** [subseq l' l]: [l'] is [l] with some items dropped, the others in
    place. *)
Inductive subseq {A : Type} : list A -> list A -> Prop :=
| subseq_nil : subseq [] []
| subseq_skip x l' l : subseq l' l -> subseq l' (x :: l)
| subseq_keep x l' l : subseq l' l -> subseq (x :: l') (x :: l).

(** No entry selected by the denylist test is directly followed by
    another one. *)
Fixpoint no_adjacent_denied (denylist : list Z) (l : list json) : bool :=
  match l with
  | [] => true
  | x :: rest =>
      match rest with
      | [] => true
      | y :: _ => negb (denied denylist x && denied denylist y)
      end && no_adjacent_denied denylist rest
  end.

(** The members that stand for the files directly in a directory. *)
Definition own_members (d : directory) : archive :=
  flat_map (fun e => match snd e with
                     | File c => [(fst e, c)]
                     | Dir _ => []
                     end) d.

(** The members of an archive, each name put below the directory [name]. *)
Definition prefixed (name : string) (zf : archive) : archive :=
  map (fun e => ((name ++ "/" ++ fst e)%string, snd e)) zf.

Definition members (r : zip_result) : archive :=
  match r with
  | Built zf => zf
  | Interrupted zf => zf
  end.

(** The member written for the file at [p] below [top]. *)
Definition member_for (top : node) (p : path) : string * bytes :=
  (as_posix p, match read_file top p with Some c => c | None => "" end).

End Notions.
Import Notions.

(* ===================================================================== *)
(** ** More sample inputs                                                 *)
(* ===================================================================== *)

Module MoreSamples.

(** A library whose extraction can end with [OSError] and whose loader
    yields a document without [files]. *)
Definition faulty_library : library := {|
  zip_extractall := fun b =>
    if String.eqb b "disk full" then ([], Some OSError)
    else ([(MANIFEST, File b)], None);
  json_load := fun c =>
    if String.eqb c "no files" then Some (JObj [("name", JStr "GameNight")])
    else None;
  json_dumps := fun _ => Some "";
  zip_bytes := fun _ => ""
|}.

Definition swap_fault : faults := {|
  manifest_write_fault := None;
  archive_write_fault := None;
  replace_fault := true
|}.

Definition empty_state : fs := mkfs (fun _ => None) None.

End MoreSamples.
Import MoreSamples.

(* ===================================================================== *)
(** ** Facts about Python equality                                        *)
(* ===================================================================== *)

Module JsonFacts.

Local Open Scope nat_scope.

Lemma json_nested_ind (P : json -> Prop) :
  P JNull ->
  (forall b, P (JBool b)) ->
  (forall n, P (JInt n)) ->
  (forall f, P (JFloat f)) ->
  (forall s, P (JStr s)) ->
  (forall l, Forall P l -> P (JArr l)) ->
  (forall o, Forall (fun kv => P (snd kv)) o -> P (JObj o)) ->
  forall v, P v.
Proof.
  intros HN HB HI HF HS HA HO.
  fix IH 1. intros [ | b | n | f | s | l | o].
  - exact HN.
  - apply HB.
  - apply HI.
  - apply HF.
  - apply HS.
  - apply HA. induction l as [|x xs IHl]; constructor; [apply IH | exact IHl].
  - apply HO. induction o as [|[k x] xs IHo]; constructor;
      [apply IH | exact IHo].
Qed.

Lemma wf_arr l : wf (JArr l) <-> Forall wf l.
Proof.
  simpl. induction l as [|x xs IH].
  - split; intros; [constructor | exact I].
  - split.
    + intros [Hx Hxs]. constructor; [exact Hx | now apply IH].
    + intros H. inversion H; subst. split; [assumption | now apply IH].
Qed.

Lemma wf_obj o :
  wf (JObj o) <-> NoDup (map fst o) /\ Forall (fun kv => wf (snd kv)) o.
Proof.
  simpl. apply and_iff_compat_l.
  induction o as [|x xs IH].
  - split; intros; [constructor | exact I].
  - split.
    + intros [Hx Hxs]. constructor; [exact Hx | now apply IH].
    + intros H. inversion H; subst. split; [assumption | now apply IH].
Qed.

Lemma dict_get_Some_In k v o : dict_get k o = Some v -> In (k, v) o.
Proof.
  induction o as [|[k' v'] rest IH]; simpl; [discriminate|].
  destruct (String.eqb k' k) eqn:E.
  - apply String.eqb_eq in E. intros H. inversion H; subst. now left.
  - intros H. right. now apply IH.
Qed.

Lemma dict_get_key_In k o :
  In k (map fst o) -> exists v, dict_get k o = Some v.
Proof.
  induction o as [|[k' v'] rest IH]; simpl; [contradiction|].
  destruct (String.eqb k' k) eqn:E; [now eexists|].
  intros [H|H]; [|now apply IH].
  subst. now rewrite String.eqb_refl in E.
Qed.

Lemma dict_get_NoDup k v o :
  NoDup (map fst o) -> In (k, v) o -> dict_get k o = Some v.
Proof.
  induction o as [|[k' v'] rest IH]; simpl; [contradiction|].
  intros ND [H|H].
  - inversion H; subst. now rewrite String.eqb_refl.
  - inversion ND as [|? ? Hnotin ND']; subst.
    destruct (String.eqb k' k) eqn:E; [|now apply IH].
    apply String.eqb_eq in E. subst. exfalso. apply Hnotin.
    apply in_map_iff. now exists (k, v).
Qed.

Lemma number_eqb_refl x : number_eqb x x = true.
Proof.
  destruct x as [q|s|]; simpl;
    [apply Qeq_bool_refl | apply Bool.eqb_reflx | reflexivity].
Qed.

Lemma number_eqb_sym x y : number_eqb x y = true -> number_eqb y x = true.
Proof.
  destruct x, y; simpl; try discriminate; try reflexivity.
  - apply Qeq_bool_sym.
  - intros H. apply Bool.eqb_prop in H. subst. apply Bool.eqb_reflx.
Qed.

Lemma number_eqb_trans x y z :
  number_eqb x y = true -> number_eqb y z = true -> number_eqb x z = true.
Proof.
  destruct x, y, z; simpl; try discriminate; try reflexivity.
  - apply Qeq_bool_trans.
  - intros H1 H2. apply Bool.eqb_prop in H1, H2. subst. apply Bool.eqb_reflx.
Qed.

(** Equality is reflexive on the documents Python can hold. *)
Lemma py_eq_refl v : wf v -> py_eq v v = true.
Proof.
  induction v as [ | b | n | f | s | l IH | o IH] using json_nested_ind;
    intros Hwf.
  - reflexivity.
  - simpl. apply Qeq_bool_refl.
  - simpl. apply Qeq_bool_refl.
  - simpl. apply number_eqb_refl.
  - simpl. apply String.eqb_refl.
  - apply wf_arr in Hwf. simpl.
    induction l as [|x xs IHl]; [reflexivity|].
    inversion IH; subst. inversion Hwf; subst.
    rewrite H1 by assumption. simpl. now apply IHl.
  - apply wf_obj in Hwf. destruct Hwf as [ND Hall].
    simpl. rewrite Nat.eqb_refl. simpl.
    apply forallb_forall. intros [k v] Hin.
    simpl. rewrite (dict_get_NoDup _ _ _ ND Hin).
    rewrite Forall_forall in IH, Hall.
    apply (IH (k, v) Hin). apply (Hall (k, v) Hin).
Qed.

(** Two equal dictionaries bind the same keys, to equal values. *)
Lemma py_eq_dict_get o o' k v' :
  py_eq (JObj o) (JObj o') = true ->
  NoDup (map fst o) ->
  dict_get k o' = Some v' ->
  exists v, dict_get k o = Some v /\ py_eq v v' = true.
Proof.
  simpl. intros H ND Hget.
  apply andb_true_iff in H. destruct H as [Hlen Hall].
  apply Nat.eqb_eq in Hlen.
  rewrite forallb_forall in Hall.
  assert (Hsub : incl (map fst o) (map fst o')).
  { intros x Hx. apply in_map_iff in Hx. destruct Hx as [[k0 v0] [Hk Hin]].
    simpl in Hk. subst x. specialize (Hall _ Hin). simpl in Hall.
    destruct (dict_get k0 o') as [w|] eqn:E; [|discriminate].
    apply dict_get_Some_In in E. apply in_map_iff. now exists (k0, w). }
  assert (Hsup : incl (map fst o') (map fst o)).
  { apply NoDup_length_incl; [assumption | | assumption].
    rewrite !length_map. lia. }
  assert (Hk : In k (map fst o)).
  { apply Hsup. apply dict_get_Some_In in Hget.
    apply in_map_iff. now exists (k, v'). }
  destruct (dict_get_key_In _ _ Hk) as [v Hv].
  exists v. split; [assumption|].
  specialize (Hall _ (dict_get_Some_In _ _ _ Hv)). simpl in Hall.
  now rewrite Hget in Hall.
Qed.

(** A value equal to a number is a number, of the same value. *)
Lemma py_eq_number v v' y :
  py_eq v v' = true -> number_of v' = Some y ->
  exists x, number_of v = Some x /\ number_eqb x y = true.
Proof.
  destruct v, v'; simpl; try discriminate;
    intros H Hy; inversion Hy; subst; eexists; (split; [reflexivity|exact H]).
Qed.

Lemma py_eq_int d v :
  py_eq (JInt d) v = true <->
  exists x, number_of v = Some x /\ number_eqb (NFin (inject_Z d)) x = true.
Proof.
  destruct v; simpl; split; try discriminate;
    try (intros [x [Hx _]]; discriminate);
    try (intros H; eexists; split; [reflexivity | exact H]);
    intros [x [Hx H]]; inversion Hx; subst; exact H.
Qed.

End JsonFacts.
Import JsonFacts.

(* ===================================================================== *)
(** ** The manifest transform: what the loop removes and what it keeps    *)
(* ===================================================================== *)

Module TransformFacts.

Local Open Scope nat_scope.

(** One turn of the loop, as an equation. *)
Lemma remove_loop_unfold D i l :
  remove_loop D i l =
  match nth_error l i with
  | None => Ok l
  | Some (JObj o) =>
      if py_in (get_projectID o) D then
        match list_remove (JObj o) l with
        | Some l' => remove_loop D (S i) l'
        | None => Raise ValueError
        end
      else remove_loop D (S i) l
  | Some _ => Raise AttributeError
  end.
Proof.
  funelim (remove_loop D i l); try rewrite <- Heqcall;
    repeat match goal with
    | H : ?x = _ |- context [match ?x with _ => _ end] => rewrite H
    end; reflexivity.
Qed.

Lemma py_in_null D : py_in JNull D = false.
Proof. unfold py_in. induction D; simpl; auto. Qed.

Lemma py_in_congr D v v' :
  py_eq v v' = true -> py_in v' D = true -> py_in v D = true.
Proof.
  unfold py_in. intros Heq Hin.
  apply existsb_exists in Hin. destruct Hin as [d [Hd Hdv]].
  apply existsb_exists. exists d. split; [assumption|].
  apply py_eq_int in Hdv. destruct Hdv as [x' [Hx' Hdx']].
  destruct (py_eq_number _ _ _ Heq Hx') as [x [Hx Hxx']].
  apply py_eq_int. exists x. split; [assumption|].
  eapply number_eqb_trans; [eassumption|]. now apply number_eqb_sym.
Qed.

(** An entry equal to a denied entry is denied as well. *)
Lemma denied_py_eq D y x :
  py_eq y x = true -> entry_ok y -> entry_ok x ->
  denied D x = true -> denied D y = true.
Proof.
  intros Heq [Hy Wy] [Hx _] Hd.
  destruct y as [ | | | | | |oy]; try discriminate.
  destruct x as [ | | | | | |ox]; try discriminate.
  apply wf_obj in Wy. destruct Wy as [ND _].
  simpl in *. unfold get_projectID in *.
  destruct (dict_get "projectID" ox) as [v'|] eqn:E.
  - destruct (py_eq_dict_get _ _ _ _ Heq ND E) as [v [Hv Hvv']].
    rewrite Hv. eapply py_in_congr; eassumption.
  - now rewrite py_in_null in Hd.
Qed.

Lemma list_remove_found x l :
  In x l -> py_eq x x = true -> exists l', list_remove x l = Some l'.
Proof.
  induction l as [|y ys IH]; simpl; [contradiction|].
  intros Hin Hrefl. destruct (py_eq y x) eqn:E; [now eexists|].
  destruct Hin as [H|H]; [subst; congruence|].
  destruct (IH H Hrefl) as [l' Hl']. rewrite Hl'. now eexists.
Qed.

Lemma list_remove_split x l l' :
  list_remove x l = Some l' ->
  exists l1 y l2, l = l1 ++ y :: l2 /\ l' = l1 ++ l2 /\ py_eq y x = true.
Proof.
  revert l'. induction l as [|y ys IH]; simpl; intros l' H; [discriminate|].
  destruct (py_eq y x) eqn:E.
  - inversion H; subst. now exists [], y, l'.
  - destruct (list_remove x ys) as [r|]; simpl in H; [|discriminate].
    inversion H; subst.
    destruct (IH r eq_refl) as [l1 [z [l2 [H1 [H2 H3]]]]]. subst.
    now exists (y :: l1), z, l2.
Qed.

(** The loop ends normally on a sequence of objects, and whatever it
    removes is denied: every selection [p] of entries that are not denied
    comes out as it went in. *)
Lemma remove_loop_keeps D (p : json -> bool) :
  (forall e, p e = true -> denied D e = false) ->
  forall n i l,
    length l - i <= n -> Forall entry_ok l ->
    exists l', remove_loop D i l = Ok l' /\ filter p l' = filter p l.
Proof.
  intros Hp. induction n as [|n IH]; intros i l Hn Hall;
    rewrite remove_loop_unfold;
    destruct (nth_error l i) as [file|] eqn:E; try (now exists l).
  - assert (i < length l) by (apply nth_error_Some; congruence). lia.
  - assert (Hi : i < length l) by (apply nth_error_Some; congruence).
    assert (Hin : In file l) by (eapply nth_error_In; eassumption).
    assert (Hok : entry_ok file) by (rewrite Forall_forall in Hall; auto).
    destruct file as [ | | | | | |o]; try (destruct Hok; discriminate).
    destruct (py_in (get_projectID o) D) eqn:Hd.
    + destruct (list_remove_found _ _ Hin (py_eq_refl _ (proj2 Hok)))
        as [l1 Hl1].
      rewrite Hl1.
      destruct (list_remove_split _ _ _ Hl1) as [a [y [b [Hl [Hl' Hy]]]]].
      subst l l1.
      assert (Hyok : entry_ok y).
      { rewrite Forall_forall in Hall. apply Hall.
        apply in_or_app. right. now left. }
      assert (Hyd : denied D y = true)
        by (eapply denied_py_eq; eassumption).
      assert (Hall' : Forall entry_ok (a ++ b)).
      { apply Forall_app in Hall. destruct Hall as [Ha Hb].
        inversion Hb; subst. apply Forall_app. now split. }
      destruct (IH (S i) (a ++ b)) as [l' [Hl' Hf]]; [|assumption|].
      { rewrite length_app in *. simpl in *. lia. }
      exists l'. split; [assumption|].
      rewrite Hf, !filter_app. simpl.
      destruct (p y) eqn:Hpy; [|reflexivity].
      apply Hp in Hpy. congruence.
    + apply IH; [lia | assumption].
Qed.

(** Nothing is removed when no entry is denied. *)
Lemma remove_loop_nothing_denied D :
  forall n i l,
    length l - i <= n ->
    Forall (fun e => is_object e = true) l ->
    (forall e, In e l -> denied D e = false) ->
    remove_loop D i l = Ok l.
Proof.
  induction n as [|n IH]; intros i l Hn Hobj Hnone;
    rewrite remove_loop_unfold;
    destruct (nth_error l i) as [file|] eqn:E; try reflexivity.
  - assert (i < length l) by (apply nth_error_Some; congruence). lia.
  - assert (Hi : i < length l) by (apply nth_error_Some; congruence).
    assert (Hin : In file l) by (eapply nth_error_In; eassumption).
    assert (Hok : is_object file = true)
      by (rewrite Forall_forall in Hobj; auto).
    destruct file as [ | | | | | |o]; try discriminate.
    pose proof (Hnone _ Hin) as Hf. simpl in Hf. rewrite Hf.
    apply IH; [lia | assumption | assumption].
Qed.

Lemma dict_set_same k v o : dict_get k o = Some v -> dict_set k v o = o.
Proof.
  induction o as [|[k' v'] rest IH]; simpl; [discriminate|].
  destruct (String.eqb k' k).
  - intros H. now inversion H.
  - intros H. now rewrite IH.
Qed.

Lemma dict_get_set k v w o :
  dict_get k o = Some w -> dict_get k (dict_set k v o) = Some v.
Proof.
  induction o as [|[k' v'] rest IH]; simpl; [discriminate|].
  destruct (String.eqb k' k) eqn:E; simpl; rewrite E; auto.
Qed.

Lemma dict_set_frame k v w o :
  dict_get k o = Some w ->
  Forall2 (fun kv kv' => fst kv = fst kv' /\ (fst kv <> k -> snd kv = snd kv'))
          o (dict_set k v o).
Proof.
  induction o as [|[k' v'] rest IH]; simpl; [discriminate|].
  destruct (String.eqb k' k) eqn:E; intros H.
  - apply String.eqb_eq in E. subst. constructor.
    + simpl. split; [reflexivity | congruence].
    + clear. induction rest; constructor; auto.
  - constructor; [simpl; auto | auto].
Qed.

(** The transform on a manifest document: it returns, the document returned
    differs from the argument in the value of [files] only, and every
    selection of entries that are not denied is the same in both. *)
Lemma modify_manifest_keeps D (p : json -> bool) m l :
  (forall e, p e = true -> denied D e = false) ->
  manifest_document m l ->
  exists m' l',
    modify_manifest_with D m = Ok m'
    /\ files_of m' = Some l'
    /\ filter p l' = filter p l
    /\ same_but_files m m'.
Proof.
  intros Hp [Hfiles Hall].
  destruct m as [ | | | | | |fields]; try discriminate.
  simpl in Hfiles.
  destruct (dict_get "files" fields) as [[ | | | | |l0| ]|] eqn:E;
    try discriminate.
  inversion Hfiles; subst l0.
  destruct (remove_loop_keeps D p Hp (length l) 0 l) as [l' [Hl' Hf]];
    [lia | assumption |].
  exists (JObj (dict_set "files" (JArr l') fields)), l'.
  simpl. rewrite E, Hl'. repeat split.
  - now rewrite (dict_get_set _ _ _ _ E).
  - assumption.
  - exists fields, (dict_set "files" (JArr l') fields).
    repeat split. eapply dict_set_frame; eassumption.
Qed.

Lemma lacks_projectID_not_denied D e :
  lacks_projectID e = true -> denied D e = false.
Proof.
  destruct e as [ | | | | | |o]; simpl; try discriminate.
  unfold get_projectID. destruct (dict_get "projectID" o); [discriminate|].
  intros _. apply py_in_null.
Qed.

Ltac solve_document :=
  split; [reflexivity |];
  repeat (apply Forall_cons || apply Forall_nil);
  (split; [reflexivity |]);
  simpl; repeat split;
  repeat (apply NoDup_cons || apply NoDup_nil);
  simpl; intuition discriminate.

(** C1, on the code: the loop skips the entry that follows a removed one.
    With the denylist [{1}], [files = [{1}, {1}, {2}]] comes out as
    [[{1}, {2}]]: a denied entry remains.  The same happens with the
    script's own denylist. *)
Theorem adjacent_duplicate_survives :
  modify_manifest_with [1%Z]
    (JObj [("files", JArr [entry 1; entry 1; entry 2])])
  = Ok (JObj [("files", JArr [entry 1; entry 2])])
  /\ modify_manifest (manifest_of [entry 890127; entry 890127; entry 2])
     = Ok (manifest_of [entry 890127; entry 2])
  /\ denied PROJECTS_TO_REMOVE (entry 890127) = true.
Proof. repeat split; vm_compute; reflexivity. Qed.

(** Applying the transform to its own output can remove more. *)
Lemma second_pass_removes_more :
  modify_manifest_with [1%Z]
    (JObj [("files", JArr [entry 1; entry 2])])
  = Ok (JObj [("files", JArr [entry 2])]).
Proof. vm_compute; reflexivity. Qed.

(** C5: on every manifest document the transform returns, and the entries
    of [files] that the denylist test does not select are, in the result,
    the same values in the same order as in the input. *)
Theorem retained_entries_preserved D m l :
  manifest_document m l ->
  exists m' l',
    modify_manifest_with D m = Ok m'
    /\ files_of m' = Some l'
    /\ filter (fun e => negb (denied D e)) l'
       = filter (fun e => negb (denied D e)) l.
Proof.
  intros Hdoc.
  destruct (modify_manifest_keeps D (fun e => negb (denied D e)) m l)
    as [m' [l' [H1 [H2 [H3 _]]]]]; [|assumption|].
  - intros e He. now apply negb_true_iff in He.
  - now exists m', l'.
Qed.

Lemma retained_entries_preserved_witness :
  exists m' l',
    modify_manifest (manifest_of [entry 890127; entry 5; entry 406463; entry 6])
    = Ok m'
    /\ files_of m' = Some l'
    /\ filter (fun e => negb (denied PROJECTS_TO_REMOVE e)) l'
       = filter (fun e => negb (denied PROJECTS_TO_REMOVE e))
           [entry 890127; entry 5; entry 406463; entry 6].
Proof.
  apply (retained_entries_preserved PROJECTS_TO_REMOVE
           (manifest_of [entry 890127; entry 5; entry 406463; entry 6])
           [entry 890127; entry 5; entry 406463; entry 6]).
  solve_document.
Defined.

(** C6: a manifest in which no entry of [files] is denied is returned as it
    is, with nothing removed and nothing changed. *)
Theorem filtered_manifest_unchanged D m l :
  files_of m = Some l ->
  Forall (fun e => is_object e = true) l ->
  (forall e, In e l -> denied D e = false) ->
  modify_manifest_with D m = Ok m.
Proof.
  intros Hfiles Hobj Hnone.
  destruct m as [ | | | | | |fields]; try discriminate.
  simpl in Hfiles.
  destruct (dict_get "files" fields) as [[ | | | | |l0| ]|] eqn:E;
    try discriminate.
  inversion Hfiles; subst l0.
  simpl. rewrite E.
  rewrite (remove_loop_nothing_denied D (length l) 0 l); [|lia|assumption..].
  now rewrite (dict_set_same _ _ _ E).
Qed.

Lemma filtered_manifest_unchanged_witness :
  modify_manifest (manifest_of [entry 5; entry 6])
  = Ok (manifest_of [entry 5; entry 6]).
Proof.
  apply (filtered_manifest_unchanged PROJECTS_TO_REMOVE
           (manifest_of [entry 5; entry 6]) [entry 5; entry 6]).
  - reflexivity.
  - repeat constructor.
  - intros e [H|[H|[]]]; subst; vm_compute; reflexivity.
Defined.

(** C7: on every manifest document the transform returns a document with
    the same top-level keys in the same order, and with the same value
    under every key other than [files]. *)
Theorem other_fields_untouched D m l :
  manifest_document m l ->
  exists m', modify_manifest_with D m = Ok m' /\ same_but_files m m'.
Proof.
  intros Hdoc.
  destruct (modify_manifest_keeps D (fun _ => false) m l)
    as [m' [l' [H1 [_ [_ H4]]]]]; [discriminate|assumption|].
  now exists m'.
Qed.

Lemma other_fields_untouched_witness :
  exists m',
    modify_manifest (manifest_of [entry 890127; entry 5]) = Ok m'
    /\ same_but_files (manifest_of [entry 890127; entry 5]) m'.
Proof.
  apply (other_fields_untouched PROJECTS_TO_REMOVE
           (manifest_of [entry 890127; entry 5]) [entry 890127; entry 5]).
  solve_document.
Defined.

(** C10: an entry without [projectID] is never selected by the denylist
    test, the transform returns on every manifest document, and the entries
    without [projectID] are, in the result, the same values in the same
    order as in the input. *)
Theorem entries_without_projectID_retained D m l :
  manifest_document m l ->
  (forall e, lacks_projectID e = true -> denied D e = false)
  /\ exists m' l',
       modify_manifest_with D m = Ok m'
       /\ files_of m' = Some l'
       /\ filter lacks_projectID l' = filter lacks_projectID l.
Proof.
  intros Hdoc. split; [apply lacks_projectID_not_denied|].
  destruct (modify_manifest_keeps D lacks_projectID m l)
    as [m' [l' [H1 [H2 [H3 _]]]]];
    [apply lacks_projectID_not_denied | assumption |].
  now exists m', l'.
Qed.

Lemma entries_without_projectID_retained_witness :
  (forall e, lacks_projectID e = true -> denied PROJECTS_TO_REMOVE e = false)
  /\ exists m' l',
       modify_manifest
         (manifest_of [JObj [("fileID", JInt 7)]; entry 890127;
                       JObj [("fileID", JInt 8)]])
       = Ok m'
       /\ files_of m' = Some l'
       /\ filter lacks_projectID l'
          = filter lacks_projectID
              [JObj [("fileID", JInt 7)]; entry 890127;
               JObj [("fileID", JInt 8)]].
Proof.
  apply (entries_without_projectID_retained PROJECTS_TO_REMOVE
           (manifest_of [JObj [("fileID", JInt 7)]; entry 890127;
                         JObj [("fileID", JInt 8)]])
           [JObj [("fileID", JInt 7)]; entry 890127;
            JObj [("fileID", JInt 8)]]).
  solve_document.
Defined.

End TransformFacts.

(* ===================================================================== *)
(** ** The archive writer: members against files                          *)
(* ===================================================================== *)

Module ArchiveFacts.

Local Open Scope nat_scope.

Lemma node_nested_ind (P : node -> Prop) :
  (forall c, P (File c)) ->
  (forall d, Forall (fun e => P (snd e)) d -> P (Dir d)) ->
  forall n, P n.
Proof.
  intros HF HD. fix IH 1. intros [c|d].
  - apply HF.
  - apply HD. induction d as [|[k x] xs IHd]; constructor;
      [apply IH | exact IHd].
Qed.

Lemma tree_ok_dir d :
  tree_ok (Dir d) <->
  NoDup (map fst d)
  /\ Forall (fun e => valid_name (fst e) /\ tree_ok (snd e)) d.
Proof.
  simpl. apply and_iff_compat_l.
  induction d as [|x xs IH].
  - split; intros; [constructor | exact I].
  - split.
    + intros [Hx Hxs]. constructor; [exact Hx | now apply IH].
    + intros H. inversion H; subst. split; [assumption | now apply IH].
Qed.

Lemma find_entry_In name n d : find_entry name d = Some n -> In (name, n) d.
Proof.
  induction d as [|[k x] rest IH]; simpl; [discriminate|].
  destruct (String.eqb k name) eqn:E.
  - apply String.eqb_eq in E. intros H. inversion H; subst. now left.
  - intros H. right. now apply IH.
Qed.

Lemma find_entry_NoDup name n d :
  NoDup (map fst d) -> In (name, n) d -> find_entry name d = Some n.
Proof.
  induction d as [|[k x] rest IH]; simpl; [contradiction|].
  intros ND [H|H].
  - inversion H; subst. now rewrite String.eqb_refl.
  - inversion ND as [|? ? Hnotin ND']; subst.
    destruct (String.eqb k name) eqn:E; [|now apply IH].
    apply String.eqb_eq in E. subst. exfalso. apply Hnotin.
    apply in_map_iff. now exists (name, n).
Qed.

Lemma filenames_In f d :
  In f (filenames d) <-> exists c, In (f, File c) d.
Proof.
  unfold filenames. rewrite in_map_iff. split.
  - intros [[k x] [Hk Hin]]. simpl in Hk. subst.
    apply filter_In in Hin. destruct Hin as [Hin Hfile].
    destruct x as [c|sub]; [now exists c | discriminate].
  - intros [c Hin]. exists (f, File c). split; [reflexivity|].
    apply filter_In. now split.
Qed.

(** [rel_files] lists the files below a node, and nothing else. *)
Lemma rel_files_spec n :
  tree_ok n ->
  forall p, In p (rel_files n) <->
            p <> [] /\ exists c, resolve n p = Some (File c).
Proof.
  induction n as [c0|d IH] using node_nested_ind; intros Hok p.
  - simpl. split; [contradiction|].
    intros [Hne [c H]]. destruct p; [congruence | discriminate].
  - apply tree_ok_dir in Hok. destruct Hok as [ND Hall].
    rewrite Forall_forall in IH, Hall.
    simpl rel_files. rewrite in_app_iff, in_map_iff, in_flat_map. split.
    + intros [[f [Hp Hf]] | [[k x] [Hin Hq]]].
      * subst p. split; [discriminate|].
        apply filenames_In in Hf. destruct Hf as [c Hin].
        exists c. simpl. now rewrite (find_entry_NoDup _ _ _ ND Hin).
      * simpl in Hq. apply in_map_iff in Hq. destruct Hq as [q [Hp Hq]].
        subst p. split; [discriminate|].
        apply (IH _ Hin) in Hq; [|apply (Hall _ Hin)].
        destruct Hq as [_ [c Hc]]. exists c.
        simpl. now rewrite (find_entry_NoDup _ _ _ ND Hin).
    + intros [Hne [c Hc]]. destruct p as [|name q]; [congruence|].
      simpl in Hc. destruct (find_entry name d) as [n'|] eqn:E;
        [|discriminate].
      apply find_entry_In in E.
      destruct q as [|x q'].
      * simpl in Hc. inversion Hc; subst. left. exists name.
        split; [reflexivity|]. apply filenames_In. now exists c.
      * right. exists (name, n'). split; [assumption|].
        simpl. apply in_map. apply (IH _ E); [apply (Hall _ E)|].
        split; [discriminate | now exists c].
Qed.

Lemma rel_files_names n :
  tree_ok n -> forall p, In p (rel_files n) -> Forall valid_name p.
Proof.
  induction n as [c0|d IH] using node_nested_ind; intros Hok p.
  - contradiction.
  - apply tree_ok_dir in Hok. destruct Hok as [ND Hall].
    rewrite Forall_forall in IH, Hall.
    simpl rel_files. rewrite in_app_iff, in_map_iff, in_flat_map.
    intros [[f [Hp Hf]] | [[k x] [Hin Hq]]].
    + subst p. apply filenames_In in Hf. destruct Hf as [c Hin].
      constructor; [apply (Hall _ Hin) | constructor].
    + simpl in Hq. apply in_map_iff in Hq. destruct Hq as [q [Hp Hq]].
      subst p. constructor; [apply (Hall _ Hin)|].
      apply (IH _ Hin); [apply (Hall _ Hin) | assumption].
Qed.

Lemma NoDup_map_fst_filter (q : string * node -> bool) d :
  NoDup (map fst d) -> NoDup (map fst (filter q d)).
Proof.
  induction d as [|e rest IH]; simpl; intros ND; [constructor|].
  inversion ND as [|? ? Hnotin ND']; subst.
  destruct (q e); simpl; [|now apply IH].
  constructor; [|now apply IH].
  intros Hin. apply Hnotin. apply in_map_iff in Hin.
  destruct Hin as [e' [He' Hin]]. apply filter_In in Hin.
  apply in_map_iff. exists e'. tauto.
Qed.

(** No file is listed twice. *)
Lemma rel_files_NoDup n : tree_ok n -> NoDup (rel_files n).
Proof.
  induction n as [c0|d IH] using node_nested_ind; intros Hok.
  - constructor.
  - pose proof (rel_files_spec (Dir d) Hok) as Hspec.
    apply tree_ok_dir in Hok. destruct Hok as [ND Hall].
    simpl rel_files. apply NoDup_app.
    + apply Injective_map_NoDup.
      * intros a b H. now inversion H.
      * now apply NoDup_map_fst_filter.
    + clear Hspec. induction d as [|[k x] rest IHd]; [constructor|].
      inversion IH as [|? ? Hx IH']; subst.
      inversion Hall as [|? ? [_ Hokx] Hall']; subst.
      inversion ND as [|? ? Hnotin ND']; subst.
      simpl. apply NoDup_app.
      * apply Injective_map_NoDup; [|now apply Hx].
        intros a b H. now inversion H.
      * now apply IHd.
      * intros p Hp Hp'. apply in_map_iff in Hp. destruct Hp as [q [Hq _]].
        apply in_flat_map in Hp'. destruct Hp' as [[k' x'] [Hin Hp']].
        simpl in Hp'. apply in_map_iff in Hp'. destruct Hp' as [q' [Hq' _]].
        subst p. inversion Hq'; subst. apply Hnotin.
        apply in_map_iff. now exists (k, x').
    + intros p Hp Hp'. apply in_map_iff in Hp. destruct Hp as [f [Hf _]].
      apply in_flat_map in Hp'. destruct Hp' as [[k x] [Hin Hq]].
      simpl in Hq. apply in_map_iff in Hq. destruct Hq as [q [Hq Hq']].
      subst p. inversion Hq; subst.
      rewrite Forall_forall in Hall.
      apply (rel_files_spec x) in Hq'; [|apply (Hall _ Hin)].
      now destruct Hq'.
Qed.

(** [as_posix] names different files differently. *)
Lemma as_posix_cons a p : as_posix (a :: p) = (a ++ posix_tail p)%string.
Proof.
  destruct p as [|b p]; [|reflexivity].
  simpl. induction a as [|c a IH]; simpl; [reflexivity | now rewrite <- IH].
Qed.

Lemma append_sep_inj a : forall b ta tb,
  has_sep a = false -> has_sep b = false ->
  (ta = "" \/ exists t, ta = String "/"%char t) ->
  (tb = "" \/ exists t, tb = String "/"%char t) ->
  (a ++ ta)%string = (b ++ tb)%string -> a = b /\ ta = tb.
Proof.
  induction a as [|c a IH]; intros [|c' b] ta tb Ha Hb Hta Htb H; simpl in *.
  - now split.
  - exfalso. apply orb_false_iff in Hb. destruct Hb as [Hc _].
    destruct Hta as [Hta | [t Hta]]; subst ta; [discriminate|].
    inversion H; subst. discriminate.
  - exfalso. apply orb_false_iff in Ha. destruct Ha as [Hc _].
    destruct Htb as [Htb | [t Htb]]; subst tb; [discriminate|].
    inversion H; subst. discriminate.
  - apply orb_false_iff in Ha, Hb. inversion H; subst.
    destruct (IH b ta tb) as [E1 E2]; try tauto. now subst.
Qed.

Lemma posix_tail_shape p :
  posix_tail p = "" \/ exists t, posix_tail p = String "/"%char t.
Proof. destruct p; simpl; [now left | right; now eexists]. Qed.

Lemma as_posix_inj p : forall q,
  Forall valid_name p -> Forall valid_name q ->
  as_posix p = as_posix q -> p = q.
Proof.
  induction p as [|a p IH]; intros [|b q] Hp Hq H.
  - reflexivity.
  - exfalso. rewrite as_posix_cons in H. inversion Hq as [|? ? [Hb _] _]; subst.
    destruct b; [congruence | discriminate].
  - exfalso. rewrite as_posix_cons in H. inversion Hp as [|? ? [Ha _] _]; subst.
    destruct a; [congruence | discriminate].
  - rewrite !as_posix_cons in H.
    inversion Hp as [|? ? [_ Ha] Hp']; inversion Hq as [|? ? [_ Hb] Hq']; subst.
    destruct (append_sep_inj a b _ _ Ha Hb (posix_tail_shape p)
                (posix_tail_shape q) H) as [E1 E2].
    subst b. f_equal.
    destruct p as [|x p'], q as [|y q']; try discriminate; [reflexivity|].
    simpl in E2. inversion E2. now apply IH.
Qed.

Lemma step_paths_app l1 l2 :
  step_paths (l1 ++ l2) = step_paths l1 ++ step_paths l2.
Proof. unfold step_paths. apply flat_map_app. Qed.

(** The walk visits the files of the tree, in the order of [rel_files]. *)
Lemma step_paths_walk n : forall root,
  step_paths (walk root n) = map (app root) (rel_files n).
Proof.
  induction n as [c0|d IH] using node_nested_ind; intros root.
  - reflexivity.
  - simpl walk. simpl rel_files.
    change (step_paths ((root, dirnames d, filenames d)
                          :: flat_map (fun e => walk (root ++ [fst e]) (snd e)) d))
      with (map (fun f => root ++ [f]) (filenames d)
              ++ step_paths (flat_map (fun e => walk (root ++ [fst e]) (snd e)) d)).
    rewrite map_app, map_map. f_equal.
    induction d as [|e rest IHd]; [reflexivity|].
    inversion IH as [|? ? He IH']; subst.
    simpl. rewrite step_paths_app, map_app, He, map_map, (IHd IH').
    f_equal. apply map_ext. intros q. now rewrite <- app_assoc.
Qed.

Lemma write_files_built top root files : forall zf,
  (forall f, In f files -> read_file top (root ++ [f]) <> None) ->
  exists zf',
    write_files top root files zf = Built (zf ++ zf')
    /\ Forall2 (member_of top) (map (fun f => root ++ [f]) files) zf'.
Proof.
  induction files as [|f rest IH]; intros zf Hread; simpl.
  - exists []. rewrite app_nil_r. split; constructor.
  - destruct (read_file top (root ++ [f])) as [c|] eqn:E.
    + destruct (IH (zf ++ [(as_posix (root ++ [f]), c)])) as [zf' [H1 H2]].
      { intros g Hg. apply Hread. now right. }
      exists ((as_posix (root ++ [f]), c) :: zf'). split.
      * rewrite H1, <- app_assoc. reflexivity.
      * constructor; [now split | assumption].
    + exfalso. apply (Hread f); [now left | assumption].
Qed.

Lemma write_walk_built top steps : forall zf,
  (forall p, In p (step_paths steps) -> read_file top p <> None) ->
  exists zf',
    write_walk top steps zf = Built (zf ++ zf')
    /\ Forall2 (member_of top) (step_paths steps) zf'.
Proof.
  induction steps as [|[[root dirs] files] rest IH]; intros zf Hread; simpl.
  - exists []. rewrite app_nil_r. split; constructor.
  - destruct (write_files_built top root files zf) as [zf1 [H1 H2]].
    { intros f Hf. apply Hread. simpl. apply in_or_app. left.
      apply in_map_iff. now exists f. }
    rewrite H1.
    destruct (IH (zf ++ zf1)) as [zf2 [H3 H4]].
    { intros p Hp. apply Hread. simpl. apply in_or_app. now right. }
    exists (zf1 ++ zf2). split.
    + rewrite H3, <- app_assoc. reflexivity.
    + now apply Forall2_app.
Qed.

Lemma member_names top paths zf :
  Forall2 (member_of top) paths zf -> map fst zf = map as_posix paths.
Proof.
  induction 1 as [|p e ps es [Hname _] _ IH]; simpl; [reflexivity|].
  now rewrite Hname, IH.
Qed.

Ltac solve_tree :=
  simpl; repeat split;
  repeat (apply NoDup_cons || apply NoDup_nil);
  simpl; intuition discriminate.

(** C8: the archive written for a directory has one member for each file of
    the tree and no other: its members stand, one for one and in order, for
    a duplicate-free list of exactly the files below the directory, each
    named by the POSIX form of the file's relative path and holding the
    file's content; and no two members share a name. *)
Theorem rezip_directory_exact d :
  tree_ok (Dir d) ->
  exists zf paths,
    rezip_directory d = Built zf
    /\ NoDup paths
    /\ (forall p, In p paths <-> exists c, read_file (Dir d) p = Some c)
    /\ Forall2 (member_of (Dir d)) paths zf
    /\ NoDup (map fst zf).
Proof.
  intros Hok.
  pose proof (rel_files_spec (Dir d) Hok) as Hspec.
  assert (Hpaths : step_paths (walk [] (Dir d)) = rel_files (Dir d)).
  { rewrite step_paths_walk. apply map_id. }
  assert (Hfile : forall p,
             In p (rel_files (Dir d)) <->
             exists c, read_file (Dir d) p = Some c).
  { intros p. rewrite Hspec. unfold read_file. split.
    - intros [_ [c Hc]]. exists c. now rewrite Hc.
    - intros [c Hc]. destruct p as [|x q]; [discriminate|].
      split; [discriminate|].
      destruct (resolve (Dir d) (x :: q)) as [[c'|]|]; try discriminate.
      now exists c'. }
  destruct (write_walk_built (Dir d) (walk [] (Dir d)) []) as [zf [H1 H2]].
  { intros p Hp. rewrite Hpaths in Hp. apply Hfile in Hp.
    destruct Hp as [c Hc]. congruence. }
  rewrite Hpaths in H2.
  exists zf, (rel_files (Dir d)). repeat split.
  - exact H1.
  - now apply rel_files_NoDup.
  - apply Hfile.
  - apply Hfile.
  - exact H2.
  - rewrite (member_names _ _ _ H2).
    apply Injective_map_NoDup_in; [|now apply rel_files_NoDup].
    intros p q Hp Hq. apply as_posix_inj; eapply rel_files_names; eassumption.
Qed.

Lemma rezip_directory_exact_witness :
  tree_ok (Dir sample_tree)
  /\ exists zf paths,
       rezip_directory sample_tree = Built zf
       /\ NoDup paths
       /\ (forall p, In p paths <->
                     exists c, read_file (Dir sample_tree) p = Some c)
       /\ Forall2 (member_of (Dir sample_tree)) paths zf
       /\ NoDup (map fst zf).
Proof.
  split; [solve_tree | apply (rezip_directory_exact sample_tree); solve_tree].
Defined.

Example rezip_sample :
  rezip_directory sample_tree
  = Built [("manifest.json", "{}"); ("overrides/b.txt", "y");
           ("overrides/config/a.cfg", "x")].
Proof. reflexivity. Qed.

End ArchiveFacts.

(* ===================================================================== *)
(** ** The coordinator: what a run leaves behind                          *)
(* ===================================================================== *)

Module CoordinatorFacts.

Lemma new_zip_path_is_sibling :
  with_suffix DEFAULT_ZIP (path_suffix DEFAULT_ZIP ++ ".new")%string
  = Some NEW_ZIP
  /\ NEW_ZIP = removelast DEFAULT_ZIP ++ [(path_name DEFAULT_ZIP ++ ".new")%string]
  /\ NEW_ZIP <> DEFAULT_ZIP.
Proof. repeat split. discriminate. Qed.

Ltac run_main :=
  unfold main, bind, try_except, with_temporary_directory, path_exists,
    extractall, read_manifest, load, call_modify, dumps, write_manifest,
    rezip, os_replace, new_path, sys_exit, ret, raise; simpl.

Ltac break_match :=
  match goal with
  | |- context [match ?x with _ => _ end] =>
      lazymatch x with
      | context [match _ with _ => _ end] => fail
      | _ => destruct x eqn:?
      end
  end.

Ltac break_hyp H :=
  match type of H with
  | context [match ?x with _ => _ end] =>
      lazymatch x with
      | context [match _ with _ => _ end] => fail
      | _ => destruct x eqn:?
      end
  end.

Ltac use_equations :=
  repeat match goal with
         | E : ?x = _ |- context [match ?x with _ => _ end] =>
             rewrite E; simpl
         end.

Ltac solve_disk :=
  unfold disk_set; simpl;
  repeat match goal with
         | |- context [list_eq_dec string_dec ?a ?b] =>
             destruct (list_eq_dec string_dec a b)
         end;
  try reflexivity; try congruence; try discriminate;
  try match goal with
      | Hn : ?p <> _, e : ?p = _ |- _ => exfalso; apply Hn; exact e
      end.

Section Run.

Variable lib : library.
Variable flt : faults.
Variable modify : transform.

(** C2: a run that does not complete leaves the bytes at the archive's path
    as they were; the only path whose content such a run may change is the
    sibling [NEW_ZIP], the archive's path with [.new] appended to its name,
    where the new archive is built. *)
Theorem original_archive_changed_only_by_swap s :
  fst (main lib flt modify s) <> Return tt ->
  disk (snd (main lib flt modify s)) DEFAULT_ZIP = disk s DEFAULT_ZIP
  /\ (forall p, p <> NEW_ZIP ->
                disk (snd (main lib flt modify s)) p = disk s p)
  /\ with_suffix DEFAULT_ZIP (path_suffix DEFAULT_ZIP ++ ".new")%string
     = Some NEW_ZIP
  /\ NEW_ZIP
     = removelast DEFAULT_ZIP ++ [(path_name DEFAULT_ZIP ++ ".new")%string].
Proof.
  run_main.
  repeat (break_match; simpl; try discriminate; try tauto);
    intros _; (split; [solve_disk|]); (split; [|split; reflexivity]);
    intros p Hp; solve_disk.
Qed.

(** What a completed run leaves: the archive built from the rewritten
    working tree stands at the archive's path, and the sibling is gone. *)
Lemma completed_run_swaps s :
  fst (main lib flt modify s) = Return tt ->
  exists d zf,
    rewritten lib flt modify s = Some d
    /\ rezip_directory d = Built zf
    /\ disk (snd (main lib flt modify s)) DEFAULT_ZIP = Some (zip_bytes lib zf)
    /\ disk (snd (main lib flt modify s)) NEW_ZIP = None.
Proof.
  unfold rewritten, serialized, edited, loaded, manifest_text, extracted, obind.
  run_main.
  repeat (break_match; simpl; try discriminate; try tauto);
    intros _; try solve_disk.
  all: repeat match goal with
              | H : Some _ = Some _ |- _ => inversion H; subst; clear H
              | H : (_, _) = (_, _) |- _ => inversion H; subst; clear H
              end.
  all: try congruence.
  all: repeat match goal with
              | H1 : ?x = _, H2 : ?x = _ |- _ =>
                  rewrite H1 in H2; inversion H2; subst; clear H2
              end.
  all: eexists; eexists; (split; [reflexivity|]);
    (split; [eassumption|]); split; solve_disk.
Qed.

(** C9: a run that finds the archive, and so creates the working directory,
    ends with the working directory removed, whether it completes, exits
    with an error status or is stopped by an exception nobody catches. *)
Theorem working_directory_removed s :
  disk s DEFAULT_ZIP <> None ->
  tmp (snd (main lib flt modify s)) = None.
Proof.
  run_main.
  repeat (break_match; simpl; try reflexivity; try congruence).
Qed.

(** C3, as the code has it: when the standard streams are flushed at exit,
    each kind of error ends the process with its own non-zero status,
    except that a missing manifest and a manifest that is not valid JSON end
    with the same status, 5; here a corrupt archive is one that extraction
    rejects with [BadZipFile].  An archive on which extraction ends with any
    other exception is not handled: the exception is uncaught and the status
    is 1, that of a missing archive.  When the streams cannot be flushed the
    status is 120 in every case. *)
Theorem exit_status_by_kind k s :
  occurs lib flt modify k s ->
  (forall flushed,
      process_status flushed (fst (main lib flt modify s))
      = if flushed then status_of k else 120%Z)
  /\ status_of k <> 0%Z
  /\ (forall k', status_of k' = status_of k ->
                 k' = k
                 \/ (k = MissingManifest /\ k' = InvalidManifest)
                 \/ (k = InvalidManifest /\ k' = MissingManifest))
  /\ (forall s', unhandled_extraction lib s' ->
       forall flushed,
         process_status flushed (fst (main lib flt modify s'))
         = if flushed then status_of ArchiveNotFound else 120%Z).
Proof.
  intros H. split; [|split; [|split]].
  - intros [|]; [|reflexivity]. unfold process_status.
    destruct k;
      unfold occurs, rebuilt, rewritten, serialized, edited, loaded,
        manifest_text, extracted, obind in H;
      repeat match goal with
             | H : exists _, _ |- _ => destruct H
             | H : _ /\ _ |- _ => destruct H
             end;
      repeat match goal with
             | H : _ |- _ => break_hyp H; try discriminate; try congruence
             | H : ?x <> None |- _ =>
                 destruct x eqn:?; [clear H | congruence]
             end;
      repeat match goal with
             | H : Some _ = Some _ |- _ => inversion H; subst; clear H
             | H : (_, _) = (_, _) |- _ => inversion H; subst; clear H
             end;
      run_main; use_equations; try reflexivity; try congruence;
      repeat (break_match; simpl; try reflexivity; try congruence).
  - destruct k; discriminate.
  - intros k'. destruct k, k'; simpl; intros E; try discriminate E; tauto.
  - intros s' [b [d [e [Hb [He Hbad]]]]] [|]; [|reflexivity].
    unfold process_status. run_main. use_equations. reflexivity.
Qed.

End Run.

Lemma original_archive_changed_only_by_swap_witness :
  fst (main toy_library rebuild_fault builtin_transform (state_with "doc"))
  <> Return tt
  /\ disk (snd (main toy_library rebuild_fault builtin_transform
                  (state_with "doc"))) DEFAULT_ZIP
     = disk (state_with "doc") DEFAULT_ZIP
  /\ (forall p, p <> NEW_ZIP ->
                disk (snd (main toy_library rebuild_fault builtin_transform
                             (state_with "doc"))) p
                = disk (state_with "doc") p)
  /\ with_suffix DEFAULT_ZIP (path_suffix DEFAULT_ZIP ++ ".new")%string
     = Some NEW_ZIP
  /\ NEW_ZIP
     = removelast DEFAULT_ZIP ++ [(path_name DEFAULT_ZIP ++ ".new")%string].
Proof.
  split; [vm_compute; discriminate|].
  apply (original_archive_changed_only_by_swap toy_library rebuild_fault
           builtin_transform (state_with "doc")).
  vm_compute; discriminate.
Defined.

Example rebuild_fault_run :
  fst (main toy_library rebuild_fault builtin_transform (state_with "doc"))
  = SysExit 11
  /\ disk (snd (main toy_library rebuild_fault builtin_transform
                  (state_with "doc"))) DEFAULT_ZIP = Some "doc"
  /\ disk (snd (main toy_library rebuild_fault builtin_transform
                  (state_with "doc"))) NEW_ZIP = Some "PK-truncated".
Proof. repeat split; vm_compute; reflexivity. Qed.

Example completed_run :
  fst (main toy_library no_faults builtin_transform (state_with "doc"))
  = Return tt
  /\ disk (snd (main toy_library no_faults builtin_transform
                  (state_with "doc"))) DEFAULT_ZIP
     = Some ("manifest.json=entry" ++ nl ++ ";readme.txt=hi")%string
  /\ disk (snd (main toy_library no_faults builtin_transform
                  (state_with "doc"))) NEW_ZIP = None.
Proof. repeat split; vm_compute; reflexivity. Qed.

Lemma working_directory_removed_witness :
  disk (state_with "not a zip") DEFAULT_ZIP <> None
  /\ tmp (snd (main toy_library no_faults builtin_transform
                 (state_with "not a zip"))) = None.
Proof.
  split; [vm_compute; discriminate|].
  apply (working_directory_removed toy_library no_faults builtin_transform
           (state_with "not a zip")).
  vm_compute; discriminate.
Defined.

Lemma exit_status_by_kind_witness :
  occurs toy_library no_faults builtin_transform CorruptArchive
    (state_with "not a zip")
  /\ (forall flushed,
         process_status flushed
           (fst (main toy_library no_faults builtin_transform
                   (state_with "not a zip")))
         = if flushed then status_of CorruptArchive else 120%Z)
  /\ status_of CorruptArchive <> 0%Z
  /\ (forall k', status_of k' = status_of CorruptArchive ->
                 k' = CorruptArchive
                 \/ (CorruptArchive = MissingManifest /\ k' = InvalidManifest)
                 \/ (CorruptArchive = InvalidManifest /\ k' = MissingManifest))
  /\ (forall s', unhandled_extraction toy_library s' ->
       forall flushed,
         process_status flushed
           (fst (main toy_library no_faults builtin_transform s'))
         = if flushed then status_of ArchiveNotFound else 120%Z).
Proof.
  assert (H : occurs toy_library no_faults builtin_transform CorruptArchive
                (state_with "not a zip")).
  { exists "not a zip", []. split; reflexivity. }
  split; [exact H|].
  apply (exit_status_by_kind toy_library no_faults builtin_transform
           CorruptArchive (state_with "not a zip") H).
Defined.

(** A damaged archive that extraction does not reject with [BadZipFile]:
    the run ends uncaught, with the status of a missing archive. *)
Example damaged_archive_uncaught :
  unhandled_extraction faulty_library (state_with "disk full")
  /\ process_status true
       (fst (main faulty_library no_faults builtin_transform
               (state_with "disk full"))) = 1%Z
  /\ process_status true
       (fst (main faulty_library no_faults builtin_transform empty_state))
     = 1%Z.
Proof.
  repeat split. exists "disk full", [], OSError. repeat split.
Qed.

(** C3, as stated, fails: a run that finds no manifest in the archive and a
    run that finds a manifest that is not valid JSON both end with status
    5. *)
Lemma missing_and_invalid_manifest_share_status :
  occurs toy_library no_faults builtin_transform MissingManifest
    (state_with "no manifest")
  /\ occurs toy_library no_faults builtin_transform InvalidManifest
       (state_with "{oops")
  /\ exit_status (fst (main toy_library no_faults builtin_transform
                         (state_with "no manifest"))) = 5%Z
  /\ exit_status (fst (main toy_library no_faults builtin_transform
                         (state_with "{oops"))) = 5%Z.
Proof.
  repeat split.
  - exists [("readme.txt", File "hi")]. split; reflexivity.
  - exists "{oops". split; reflexivity.
Qed.

(** C4, on the code: [main] drops what the transform returns.  With a
    transform that leaves its argument alone and returns the new document
    [f manifest], the run is the run of the transform that changes nothing.
    So with the transform that returns the manifest without its entries,
    which would be written as the empty text, the archive is rebuilt around
    the manifest as it was loaded, with both entries. *)
Theorem returned_document_is_dropped :
  (forall lib flt (f : json -> json) s,
      main lib flt (fun manifest => Ok (manifest, f manifest)) s
      = main lib flt (fun manifest => Ok (manifest, manifest)) s)
  /\ json_dumps toy_library
       (without_files (manifest_of [entry 890127; entry 5])) = Some ""
  /\ disk (snd (main toy_library no_faults
                  (fun m => Ok (m, without_files m)) (state_with "doc")))
          DEFAULT_ZIP
     = Some ("manifest.json=entry,entry" ++ nl ++ ";readme.txt=hi")%string.
Proof.
  split; [|split].
  - intros lib flt f s. unfold main, call_modify. reflexivity.
  - reflexivity.
  - vm_compute. reflexivity.
Qed.

End CoordinatorFacts.

(* ===================================================================== *)
(** ** The manifest transform: further properties of the loop            *)
(* ===================================================================== *)

Module TransformMore.

Import TransformFacts.
Local Open Scope nat_scope.

Lemma subseq_refl {A : Type} (l : list A) : subseq l l.
Proof.
  induction l; [apply subseq_nil | now apply subseq_keep].
Qed.

Lemma subseq_trans {A : Type} (l1 l2 l3 : list A) :
  subseq l1 l2 -> subseq l2 l3 -> subseq l1 l3.
Proof.
  intros H12 H23. revert l1 H12.
  induction H23 as [|x l2 l3 H IH|x l2 l3 H IH]; intros l1 H12.
  - exact H12.
  - apply subseq_skip. now apply IH.
  - inversion H12; subst.
    + apply subseq_skip. now apply IH.
    + apply subseq_keep. now apply IH.
Qed.

Lemma subseq_drop_one {A : Type} (a b : list A) y :
  subseq (a ++ b) (a ++ y :: b).
Proof.
  induction a as [|x a IH]; simpl.
  - apply subseq_skip. apply subseq_refl.
  - now apply subseq_keep.
Qed.

(** What the transform returns for a document with a [files] list. *)
Lemma modify_manifest_result D m m' l :
  modify_manifest_with D m = Ok m' ->
  files_of m = Some l ->
  exists l', remove_loop D 0 l = Ok l' /\ files_of m' = Some l'.
Proof.
  intros Hrun Hfiles.
  destruct m as [ | | | | | |fields]; try discriminate.
  simpl in Hfiles, Hrun.
  destruct (dict_get "files" fields) as [[ | | | | |l0| ]|] eqn:E;
    try discriminate.
  inversion Hfiles; subst l0.
  destruct (remove_loop D 0 l) as [l'|e] eqn:Hl; [|discriminate].
  inversion Hrun; subst. exists l'. split; [reflexivity|].
  simpl. now rewrite (dict_get_set _ _ _ _ E).
Qed.

Lemma remove_loop_subseq D : forall n i l l',
  length l - i <= n -> remove_loop D i l = Ok l' -> subseq l' l.
Proof.
  induction n as [|n IH]; intros i l l' Hn;
    rewrite remove_loop_unfold;
    destruct (nth_error l i) as [file|] eqn:E;
    try (intros H; inversion H; subst; apply subseq_refl).
  - assert (i < length l) by (apply nth_error_Some; congruence). lia.
  - assert (Hi : i < length l) by (apply nth_error_Some; congruence).
    destruct file as [ | | | | | |o]; try discriminate.
    destruct (py_in (get_projectID o) D).
    + destruct (list_remove (JObj o) l) as [l1|] eqn:Hl1; [|discriminate].
      destruct (list_remove_split _ _ _ Hl1) as [a [y [b [Hl [Hl' _]]]]].
      intros H. apply (subseq_trans _ l1).
      * apply (IH (S i)); [|assumption].
        subst. rewrite length_app in *. simpl in *. lia.
      * subst. apply subseq_drop_one.
    + apply IH. lia.
Qed.

Lemma remove_loop_length D : forall n i l l',
  length l - i <= n -> remove_loop D i l = Ok l' ->
  length l + Nat.min i (length l) <= 2 * length l' + 1.
Proof.
  induction n as [|n IH]; intros i l l' Hn;
    rewrite remove_loop_unfold;
    destruct (nth_error l i) as [file|] eqn:E;
    try (intros H; inversion H; subst; lia).
  - assert (i < length l) by (apply nth_error_Some; congruence). lia.
  - assert (Hi : i < length l) by (apply nth_error_Some; congruence).
    destruct file as [ | | | | | |o]; try discriminate.
    destruct (py_in (get_projectID o) D).
    + destruct (list_remove (JObj o) l) as [l1|] eqn:Hl1; [|discriminate].
      pose proof (list_remove_split _ _ _ Hl1) as [a [y [b [Hl [Hl' _]]]]].
      assert (Hlen : length l = S (length l1))
        by (subst; rewrite !length_app; simpl; lia).
      intros H. apply (IH (S i)) in H; lia.
    + intros H. apply (IH (S i)) in H; lia.
Qed.

(** The transform only drops entries: the [files] of the result are the
    [files] of the argument with some entries left out, the others in their
    places. *)
Theorem result_is_subsequence D m m' l :
  modify_manifest_with D m = Ok m' ->
  files_of m = Some l ->
  exists l', files_of m' = Some l' /\ subseq l' l.
Proof.
  intros Hrun Hfiles.
  destruct (modify_manifest_result _ _ _ _ Hrun Hfiles) as [l' [Hl' Hf]].
  exists l'. split; [assumption|].
  eapply remove_loop_subseq; [|eassumption]. apply Nat.le_refl.
Qed.

Lemma result_is_subsequence_witness :
  exists l',
    files_of (manifest_of [entry 5; entry 889079]) = Some l'
    /\ subseq l' [entry 890127; entry 5; entry 406463; entry 889079].
Proof.
  apply (result_is_subsequence PROJECTS_TO_REMOVE
           (manifest_of [entry 890127; entry 5; entry 406463; entry 889079])
           (manifest_of [entry 5; entry 889079])
           [entry 890127; entry 5; entry 406463; entry 889079]);
    vm_compute; reflexivity.
Defined.

(** Because the iterator steps over the entry behind each removal, the
    transform removes at most every other entry: of [n] entries at least
    [n / 2], rounded down, remain, whatever the denylist. *)
Theorem at_most_half_removed D m m' l :
  modify_manifest_with D m = Ok m' ->
  files_of m = Some l ->
  exists l', files_of m' = Some l' /\ length l <= 2 * length l' + 1.
Proof.
  intros Hrun Hfiles.
  destruct (modify_manifest_result _ _ _ _ Hrun Hfiles) as [l' [Hl' Hf]].
  exists l'. split; [assumption|].
  apply (remove_loop_length D (length l) 0 l l') in Hl'; lia.
Qed.

Lemma at_most_half_removed_witness :
  exists l',
    files_of (manifest_of [entry 889079; entry 406463]) = Some l'
    /\ length [entry 890127; entry 889079; entry 406463; entry 406463]
       <= 2 * length l' + 1.
Proof.
  apply (at_most_half_removed PROJECTS_TO_REMOVE
           (manifest_of [entry 890127; entry 889079; entry 406463; entry 406463])
           (manifest_of [entry 889079; entry 406463])
           [entry 890127; entry 889079; entry 406463; entry 406463]);
    vm_compute; reflexivity.
Defined.

Lemma list_remove_at x a b :
  (forall y, In y a -> py_eq y x = false) ->
  py_eq x x = true ->
  list_remove x (a ++ x :: b) = Some (a ++ b).
Proof.
  intros Ha Hx. induction a as [|y a IH]; simpl.
  - now rewrite Hx.
  - rewrite (Ha y) by now left.
    rewrite IH; [reflexivity|]. intros z Hz. apply Ha. now right.
Qed.

Lemma no_adjacent_denied_tail D x rest :
  no_adjacent_denied D (x :: rest) = true -> no_adjacent_denied D rest = true.
Proof. simpl. intros H. apply andb_true_iff in H. tauto. Qed.

Lemma nth_error_middle (a b : list json) x :
  nth_error (a ++ x :: b) (length a) = Some x.
Proof. rewrite nth_error_app2, Nat.sub_diag by lia. reflexivity. Qed.

Ltac past_the_end :=
  simpl filter; rewrite ?app_nil_r;
  match goal with
  | |- context [nth_error ?l ?i] =>
      replace (nth_error l i) with (@None json)
        by (symmetry; apply nth_error_None; lia)
  end;
  reflexivity.

(** With the entries [a] behind it, none of them denied, and no two denied
    entries side by side ahead, the loop is the filter it is meant to be. *)
Lemma remove_loop_filters D : forall n a b,
  length b <= n ->
  Forall entry_ok (a ++ b) ->
  (forall e, In e a -> denied D e = false) ->
  no_adjacent_denied D b = true ->
  remove_loop D (length a) (a ++ b)
  = Ok (a ++ filter (fun e => negb (denied D e)) b).
Proof.
  induction n as [|n IH]; intros a b Hn Hall Ha Hadj;
    rewrite remove_loop_unfold.
  - destruct b; [|simpl in Hn; lia]. past_the_end.
  - destruct b as [|x rest].
    + past_the_end.
    + rewrite nth_error_middle.
      assert (Hx : entry_ok x).
      { rewrite Forall_forall in Hall. apply Hall.
        apply in_or_app. right. now left. }
      destruct x as [ | | | | | |o]; try (destruct Hx; discriminate).
      destruct (py_in (get_projectID o) D) eqn:Hd.
      * rewrite list_remove_at.
        2:{ intros y Hy. destruct (py_eq y (JObj o)) eqn:E; [|reflexivity].
            assert (Hyok : entry_ok y).
            { rewrite Forall_forall in Hall. apply Hall.
              apply in_or_app. now left. }
            pose proof (denied_py_eq D y (JObj o) E Hyok Hx Hd) as Hyd.
            rewrite (Ha y Hy) in Hyd. discriminate. }
        2:{ apply py_eq_refl. apply Hx. }
        simpl filter. simpl denied. rewrite Hd. simpl.
        destruct rest as [|y rest'].
        -- rewrite remove_loop_unfold. past_the_end.
        -- simpl in Hadj. simpl in Hd. rewrite Hd in Hadj. simpl in Hadj.
           apply andb_true_iff in Hadj. destruct Hadj as [Hy Hrest].
           apply negb_true_iff in Hy. apply andb_true_iff in Hrest.
           simpl. rewrite Hy. simpl.
           replace (S (length a)) with (length (a ++ [y]))
             by (rewrite length_app; simpl; lia).
           replace (a ++ y :: rest') with ((a ++ [y]) ++ rest')
             by (rewrite <- app_assoc; reflexivity).
           rewrite IH.
           ++ rewrite <- app_assoc. reflexivity.
           ++ simpl in Hn. lia.
           ++ rewrite <- app_assoc. simpl.
              apply Forall_app in Hall. destruct Hall as [H1 H2].
              inversion H2; subst. apply Forall_app. now split.
           ++ intros e He. apply in_app_or in He.
              destruct He as [He|[He|[]]]; [now apply Ha | now subst].
           ++ apply Hrest.
      * simpl filter. simpl denied. rewrite Hd. simpl.
        replace (S (length a)) with (length (a ++ [JObj o]))
          by (rewrite length_app; simpl; lia).
        replace (a ++ JObj o :: rest) with ((a ++ [JObj o]) ++ rest)
          by (rewrite <- app_assoc; reflexivity).
        rewrite IH.
        -- rewrite <- app_assoc. reflexivity.
        -- simpl in Hn. lia.
        -- now rewrite <- app_assoc.
        -- intros e He. apply in_app_or in He.
           destruct He as [He|[He|[]]]; [now apply Ha | now subst].
        -- eapply no_adjacent_denied_tail; eassumption.
Qed.

(** When no denied entry of [files] directly follows another one, the
    transform removes every denied entry: the result holds exactly the
    entries that are not denied, in their order. *)
Theorem filters_when_no_adjacent_denied D m l :
  manifest_document m l ->
  no_adjacent_denied D l = true ->
  exists m',
    modify_manifest_with D m = Ok m'
    /\ files_of m' = Some (filter (fun e => negb (denied D e)) l).
Proof.
  intros [Hfiles Hall] Hadj.
  destruct m as [ | | | | | |fields]; try discriminate.
  simpl in Hfiles.
  destruct (dict_get "files" fields) as [[ | | | | |l0| ]|] eqn:E;
    try discriminate.
  inversion Hfiles; subst l0.
  pose proof (remove_loop_filters D (length l) [] l (Nat.le_refl _) Hall)
    as Hloop.
  simpl in Hloop. specialize (Hloop (fun e H => False_ind _ H) Hadj).
  eexists. simpl. rewrite E, Hloop. split; [reflexivity|].
  simpl. now rewrite (dict_get_set _ _ _ _ E).
Qed.

Lemma filters_when_no_adjacent_denied_witness :
  exists m',
    modify_manifest
      (manifest_of [entry 890127; entry 5; entry 406463; entry 6;
                    entry 890127]) = Ok m'
    /\ files_of m'
       = Some (filter (fun e => negb (denied PROJECTS_TO_REMOVE e))
                 [entry 890127; entry 5; entry 406463; entry 6;
                  entry 890127]).
Proof.
  apply (filters_when_no_adjacent_denied PROJECTS_TO_REMOVE
           (manifest_of [entry 890127; entry 5; entry 406463; entry 6;
                         entry 890127])
           [entry 890127; entry 5; entry 406463; entry 6; entry 890127]).
  - solve_document.
  - vm_compute; reflexivity.
Defined.

Lemma remove_loop_reaches_non_object D x b : forall a2 a1,
  Forall (fun e => is_object e = true) a2 ->
  (forall e, In e a2 -> denied D e = false) ->
  is_object x = false ->
  remove_loop D (length a1) (a1 ++ a2 ++ x :: b) = Raise AttributeError.
Proof.
  induction a2 as [|y a2 IH]; intros a1 Hobj Hnone Hx;
    rewrite remove_loop_unfold; simpl app; rewrite nth_error_middle.
  - destruct x; try reflexivity. discriminate.
  - inversion Hobj as [|? ? Hy Hobj']; subst.
    destruct y as [ | | | | | |o]; try discriminate.
    pose proof (Hnone (JObj o) (or_introl eq_refl)) as Hd. simpl in Hd.
    rewrite Hd.
    replace (S (length a1)) with (length (a1 ++ [JObj o]))
      by (rewrite length_app; simpl; lia).
    replace (a1 ++ JObj o :: a2 ++ x :: b)
      with ((a1 ++ [JObj o]) ++ a2 ++ x :: b)
      by (rewrite <- app_assoc; reflexivity).
    apply IH; [assumption | | assumption].
    intros e He. apply Hnone. now right.
Qed.

(** An entry of [files] that is not an object stops the transform with
    [AttributeError] when the loop gets to it, which it does when the
    entries before it are objects that the denylist test does not select. *)
Theorem non_object_entry_raises D m a x b :
  files_of m = Some (a ++ x :: b) ->
  Forall (fun e => is_object e = true) a ->
  (forall e, In e a -> denied D e = false) ->
  is_object x = false ->
  modify_manifest_with D m = Raise AttributeError.
Proof.
  intros Hfiles Hobj Hnone Hx.
  destruct m as [ | | | | | |fields]; try discriminate.
  simpl in Hfiles.
  destruct (dict_get "files" fields) as [[ | | | | |l0| ]|] eqn:E;
    try discriminate.
  inversion Hfiles; subst l0.
  pose proof (remove_loop_reaches_non_object D x b a [] Hobj Hnone Hx)
    as Hloop.
  simpl in Hloop. simpl. now rewrite E, Hloop.
Qed.

Lemma non_object_entry_raises_witness :
  modify_manifest (manifest_of [entry 5; JStr "oops"; entry 6])
  = Raise AttributeError.
Proof.
  apply (non_object_entry_raises PROJECTS_TO_REMOVE
           (manifest_of [entry 5; JStr "oops"; entry 6])
           [entry 5] (JStr "oops") [entry 6]).
  - reflexivity.
  - repeat constructor.
  - intros e [H|[]]; subst; vm_compute; reflexivity.
  - reflexivity.
Defined.

(** The same entry goes unnoticed when it stands directly behind an entry
    that is removed. *)
Example non_object_entry_skipped :
  modify_manifest (manifest_of [entry 890127; JStr "oops"; entry 6])
  = Ok (manifest_of [JStr "oops"; entry 6]).
Proof. vm_compute; reflexivity. Qed.

End TransformMore.

(* ===================================================================== *)
(** ** The archive writer: how an archive is put together                 *)
(* ===================================================================== *)

Module ArchiveMore.

Import ArchiveFacts.
Local Open Scope nat_scope.

Lemma write_files_members top root files : forall zf,
  (forall f, In f files -> read_file top (root ++ [f]) <> None) ->
  write_files top root files zf
  = Built (zf ++ map (member_for top) (map (fun f => root ++ [f]) files)).
Proof.
  induction files as [|f rest IH]; intros zf Hread; simpl.
  - now rewrite app_nil_r.
  - unfold member_for at 1.
    destruct (read_file top (root ++ [f])) as [c|] eqn:E.
    + rewrite IH, <- app_assoc; [reflexivity|].
      intros g Hg. apply Hread. now right.
    + exfalso. apply (Hread f); [now left | assumption].
Qed.

Lemma write_walk_members top steps : forall zf,
  (forall p, In p (step_paths steps) -> read_file top p <> None) ->
  write_walk top steps zf
  = Built (zf ++ map (member_for top) (step_paths steps)).
Proof.
  induction steps as [|[[root dirs] files] rest IH]; intros zf Hread; simpl.
  - now rewrite app_nil_r.
  - rewrite write_files_members.
    + rewrite IH, <- app_assoc, map_app; [reflexivity|].
      intros p Hp. apply Hread. simpl. apply in_or_app. now right.
    + intros f Hf. apply Hread. simpl. apply in_or_app. left.
      apply in_map_iff. now exists f.
Qed.

(** The archive of a tree, member by member. *)
Lemma rezip_directory_members d :
  tree_ok (Dir d) ->
  rezip_directory d = Built (map (member_for (Dir d)) (rel_files (Dir d))).
Proof.
  intros Hok. unfold rezip_directory.
  rewrite write_walk_members.
  - rewrite step_paths_walk, map_id. reflexivity.
  - intros p Hp. rewrite step_paths_walk, map_id in Hp.
    apply (rel_files_spec (Dir d) Hok) in Hp. destruct Hp as [_ [c Hc]].
    unfold read_file. now rewrite Hc.
Qed.

Lemma own_members_of d : forall d',
  (forall e, In e d' -> find_entry (fst e) d = Some (snd e)) ->
  map (member_for (Dir d)) (map (fun f => [f]) (filenames d'))
  = own_members d'.
Proof.
  induction d' as [|[k x] rest IH]; intros Hfind; [reflexivity|].
  assert (Hrest : forall e, In e rest -> find_entry (fst e) d = Some (snd e))
    by (intros e He; apply Hfind; now right).
  specialize (IH Hrest).
  pose proof (Hfind (k, x) (or_introl eq_refl)) as Hk. simpl in Hk.
  destruct x as [c|sub].
  - change (filenames ((k, File c) :: rest)) with (k :: filenames rest).
    change (own_members ((k, File c) :: rest))
      with ((k, c) :: own_members rest).
    simpl map. rewrite IH. f_equal.
    unfold member_for, read_file. simpl. now rewrite Hk.
  - exact IH.
Qed.

Lemma member_below d k sub q :
  find_entry k d = Some (Dir sub) -> q <> [] ->
  member_for (Dir d) (k :: q)
  = ((k ++ "/" ++ fst (member_for (Dir sub) q))%string,
     snd (member_for (Dir sub) q)).
Proof.
  intros Hk Hq. unfold member_for, read_file. simpl fst. simpl snd.
  rewrite as_posix_cons. simpl resolve. rewrite Hk.
  destruct q as [|x q']; [congruence|]. reflexivity.
Qed.

Lemma sub_members_of d : forall d',
  (forall e, In e d' -> find_entry (fst e) d = Some (snd e)) ->
  Forall (fun e => tree_ok (snd e)) d' ->
  map (member_for (Dir d))
      (flat_map (fun e => map (cons (fst e)) (rel_files (snd e))) d')
  = flat_map (fun e => match snd e with
                       | Dir sub =>
                           prefixed (fst e) (members (rezip_directory sub))
                       | File _ => []
                       end) d'.
Proof.
  induction d' as [|[k x] rest IH]; intros Hfind Hok; [reflexivity|].
  assert (Hrest : forall e, In e rest -> find_entry (fst e) d = Some (snd e))
    by (intros e He; apply Hfind; now right).
  inversion Hok as [|? ? Hx Hok']; subst.
  specialize (IH Hrest Hok').
  pose proof (Hfind (k, x) (or_introl eq_refl)) as Hk. simpl in Hk, Hx.
  cbn [flat_map fst snd]. rewrite map_app. f_equal; [|exact IH].
  destruct x as [c|sub]; [reflexivity|].
  rewrite (rezip_directory_members sub Hx). simpl members.
  unfold prefixed. rewrite !map_map.
  apply map_ext_in. intros q Hq.
  apply member_below; [assumption|].
  apply (rel_files_spec (Dir sub) Hx) in Hq. tauto.
Qed.

(** The archive of a directory is made of the members for its own files,
    in listing order, followed, for each sub-directory in listing order, by
    the archive of that sub-directory with the sub-directory's name and a
    slash put before every member name. *)
Theorem rezip_directory_by_parts d :
  tree_ok (Dir d) ->
  rezip_directory d
  = Built (own_members d
             ++ flat_map (fun e =>
                            match snd e with
                            | Dir sub =>
                                prefixed (fst e)
                                  (members (rezip_directory sub))
                            | File _ => []
                            end) d).
Proof.
  intros Hok. rewrite (rezip_directory_members d Hok).
  apply tree_ok_dir in Hok. destruct Hok as [ND Hall].
  assert (Hfind : forall e, In e d -> find_entry (fst e) d = Some (snd e)).
  { intros [k x] He. now apply find_entry_NoDup. }
  cbn [rel_files]. rewrite map_app. do 2 f_equal.
  - now apply own_members_of.
  - apply sub_members_of; [assumption|].
    eapply Forall_impl; [|exact Hall]. intros e He. apply He.
Qed.

Lemma rezip_directory_by_parts_witness :
  tree_ok (Dir sample_tree)
  /\ rezip_directory sample_tree
     = Built (own_members sample_tree
                ++ flat_map (fun e =>
                               match snd e with
                               | Dir sub =>
                                   prefixed (fst e)
                                     (members (rezip_directory sub))
                               | File _ => []
                               end) sample_tree).
Proof.
  split; [solve_tree | apply (rezip_directory_by_parts sample_tree); solve_tree].
Defined.

Lemma tree_ok_without d1 e d2 :
  tree_ok (Dir (d1 ++ e :: d2)) -> tree_ok (Dir (d1 ++ d2)).
Proof.
  intros Hok. apply tree_ok_dir in Hok. destruct Hok as [ND Hall].
  apply tree_ok_dir. split.
  - rewrite map_app in *. simpl in ND. eapply NoDup_remove_1. exact ND.
  - apply Forall_app in Hall. destruct Hall as [H1 H2].
    inversion H2; subst. apply Forall_app. now split.
Qed.

(** A directory that holds no file, directly or further down, leaves no
    trace in the archive: the archive is the one written without it. *)
Theorem fileless_directory_left_out d1 name sub d2 :
  tree_ok (Dir (d1 ++ (name, Dir sub) :: d2)) ->
  rel_files (Dir sub) = [] ->
  rezip_directory (d1 ++ (name, Dir sub) :: d2) = rezip_directory (d1 ++ d2).
Proof.
  intros Hok Hnone.
  pose proof (tree_ok_without _ _ _ Hok) as Hok'.
  rewrite (rezip_directory_by_parts _ Hok), (rezip_directory_by_parts _ Hok').
  assert (Hsub : tree_ok (Dir sub)).
  { apply tree_ok_dir in Hok. destruct Hok as [_ Hall].
    apply Forall_app in Hall. destruct Hall as [_ H2].
    inversion H2 as [|? ? [_ H] _]. exact H. }
  unfold own_members. rewrite !flat_map_app. simpl flat_map.
  rewrite (rezip_directory_members sub Hsub), Hnone. reflexivity.
Qed.

Lemma fileless_directory_left_out_witness :
  tree_ok (Dir ([("manifest.json", File "{}")]
                  ++ ("mods", Dir [("cache", Dir [])])
                  :: [("readme.txt", File "hi")]))
  /\ rezip_directory ([("manifest.json", File "{}")]
                        ++ ("mods", Dir [("cache", Dir [])])
                        :: [("readme.txt", File "hi")])
     = rezip_directory ([("manifest.json", File "{}")]
                          ++ [("readme.txt", File "hi")]).
Proof.
  split; [solve_tree|].
  apply (fileless_directory_left_out [("manifest.json", File "{}")]
           "mods" [("cache", Dir [])] [("readme.txt", File "hi")]);
    [solve_tree | reflexivity].
Defined.

End ArchiveMore.

(* ===================================================================== *)
(** ** The coordinator: further properties of a run                       *)
(* ===================================================================== *)

Module CoordinatorMore.

Import CoordinatorFacts.

Ltac same_equations :=
  repeat match goal with
         | H : Some _ = Some _ |- _ => inversion H; subst; clear H
         | H : (_, _) = (_, _) |- _ => inversion H; subst; clear H
         | H1 : ?x = _, H2 : ?x = _ |- _ =>
             rewrite H1 in H2; inversion H2; subst; clear H2
         end.

Section Run.

Variable lib : library.
Variable flt : faults.
Variable modify : transform.

(** Without the archive the run stops at once with status 1: the state is
    left as it is, and no working directory is created. *)
Theorem missing_archive_changes_nothing s :
  disk s DEFAULT_ZIP = None ->
  main lib flt modify s = (SysExit 1, s).
Proof.
  intros H. run_main. now rewrite H.
Qed.

Lemma zero_status_returns s :
  exit_status (fst (main lib flt modify s)) = 0%Z ->
  fst (main lib flt modify s) = Return tt.
Proof.
  run_main.
  repeat (break_match; simpl; try discriminate; try reflexivity).
Qed.

(** Status 0 is a reliable signal: it is reached only by a run that built
    the new archive from the working tree with the manifest rewritten and
    moved it over the original, leaving nothing at the sibling path. *)
Theorem zero_status_means_swapped s :
  exit_status (fst (main lib flt modify s)) = 0%Z ->
  exists d zf,
    rewritten lib flt modify s = Some d
    /\ rezip_directory d = Built zf
    /\ disk (snd (main lib flt modify s)) DEFAULT_ZIP
       = Some (zip_bytes lib zf)
    /\ disk (snd (main lib flt modify s)) NEW_ZIP = None.
Proof.
  intros H. apply completed_run_swaps. now apply zero_status_returns.
Qed.


(** When the final replacement fails (status 12) the new archive is not
    cleaned up: it stays at the sibling path, next to the original, which
    is unchanged. *)
Theorem failed_swap_leaves_new_archive s :
  fst (main lib flt modify s) = SysExit 12 ->
  exists d zf,
    rewritten lib flt modify s = Some d
    /\ rezip_directory d = Built zf
    /\ disk (snd (main lib flt modify s)) NEW_ZIP = Some (zip_bytes lib zf)
    /\ disk (snd (main lib flt modify s)) DEFAULT_ZIP = disk s DEFAULT_ZIP.
Proof.
  unfold rewritten, serialized, edited, loaded, manifest_text, extracted, obind.
  run_main.
  repeat (break_match; simpl; try discriminate; try tauto);
    intros _; try solve_disk.
  all: same_equations; try congruence.
  all: eexists; eexists; (split; [reflexivity|]);
    (split; [eassumption|]); split; solve_disk.
Qed.

(** The call of the transform is not guarded: an exception it raises ends
    the run uncaught (status 1, as for a missing archive), with the disk as
    it was and the working directory removed. *)
Theorem transform_exception_is_uncaught s m e :
  loaded lib s = Some m ->
  modify m = Raise e ->
  main lib flt modify s
  = (Raised (TransformError e), mkfs (disk s) None).
Proof.
  unfold loaded, manifest_text, extracted, obind.
  intros Hload Hraise.
  repeat match goal with
         | H : _ |- _ => break_hyp H; try discriminate
         end.
  same_equations.
  run_main. use_equations. reflexivity.
Qed.

(** Only [BadZipFile] is handled during extraction: any other exception
    ends the run uncaught, with the disk as it was and the working
    directory removed. *)
Theorem extraction_exception_is_uncaught s b d e :
  disk s DEFAULT_ZIP = Some b ->
  zip_extractall lib b = (d, Some e) ->
  is_BadZipFile e = false ->
  main lib flt modify s = (Raised e, mkfs (disk s) None).
Proof.
  intros Hb He Hbad. run_main. use_equations. reflexivity.
Qed.

End Run.

Lemma missing_archive_changes_nothing_witness :
  disk empty_state DEFAULT_ZIP = None
  /\ main toy_library no_faults builtin_transform empty_state
     = (SysExit 1, empty_state).
Proof.
  split; [reflexivity|].
  apply (missing_archive_changes_nothing toy_library no_faults
           builtin_transform empty_state).
  reflexivity.
Defined.

Lemma zero_status_means_swapped_witness :
  exists d zf,
    rewritten toy_library no_faults builtin_transform (state_with "doc")
    = Some d
    /\ rezip_directory d = Built zf
    /\ disk (snd (main toy_library no_faults builtin_transform
                    (state_with "doc"))) DEFAULT_ZIP
       = Some (zip_bytes toy_library zf)
    /\ disk (snd (main toy_library no_faults builtin_transform
                    (state_with "doc"))) NEW_ZIP = None.
Proof.
  apply (zero_status_means_swapped toy_library no_faults builtin_transform
           (state_with "doc")).
  vm_compute; reflexivity.
Defined.


Lemma failed_swap_leaves_new_archive_witness :
  exists d zf,
    rewritten toy_library swap_fault builtin_transform (state_with "doc")
    = Some d
    /\ rezip_directory d = Built zf
    /\ disk (snd (main toy_library swap_fault builtin_transform
                    (state_with "doc"))) NEW_ZIP
       = Some (zip_bytes toy_library zf)
    /\ disk (snd (main toy_library swap_fault builtin_transform
                    (state_with "doc"))) DEFAULT_ZIP
       = disk (state_with "doc") DEFAULT_ZIP.
Proof.
  apply (failed_swap_leaves_new_archive toy_library swap_fault
           builtin_transform (state_with "doc")).
  vm_compute; reflexivity.
Defined.

Lemma transform_exception_is_uncaught_witness :
  main faulty_library no_faults builtin_transform (state_with "no files")
  = (Raised (TransformError KeyError),
     mkfs (disk (state_with "no files")) None).
Proof.
  apply (transform_exception_is_uncaught faulty_library no_faults
           builtin_transform (state_with "no files")
           (JObj [("name", JStr "GameNight")]) KeyError);
    reflexivity.
Defined.

Lemma extraction_exception_is_uncaught_witness :
  main faulty_library no_faults builtin_transform (state_with "disk full")
  = (Raised OSError, mkfs (disk (state_with "disk full")) None).
Proof.
  apply (extraction_exception_is_uncaught faulty_library no_faults
           builtin_transform (state_with "disk full") "disk full" [] OSError);
    reflexivity.
Defined.

(** *** What the new archive holds *)

Lemma find_entry_set_entry name t d k x0 :
  find_entry name d = Some x0 ->
  find_entry k (set_entry name (Some t) d)
  = if String.eqb k name then Some (File t) else find_entry k d.
Proof.
  induction d as [|[n x] rest IH]; simpl; [discriminate|].
  destruct (String.eqb n name) eqn:En; intros H.
  - apply String.eqb_eq in En. subst n. simpl.
    rewrite (String.eqb_sym k name).
    destruct (String.eqb name k); reflexivity.
  - simpl. rewrite (IH H).
    destruct (String.eqb n k) eqn:Ek; [|reflexivity].
    apply String.eqb_eq in Ek. subst k. now rewrite En.
Qed.

Lemma map_fst_set_entry name t d x0 :
  find_entry name d = Some x0 ->
  map fst (set_entry name (Some t) d) = map fst d.
Proof.
  induction d as [|[n x] rest IH]; simpl; [discriminate|].
  destruct (String.eqb n name); intros H; simpl; [reflexivity|].
  now rewrite (IH H).
Qed.

Lemma tree_ok_set_entry name t d x0 :
  tree_ok (Dir d) -> find_entry name d = Some x0 ->
  tree_ok (Dir (set_entry name (Some t) d)).
Proof.
  intros Hok Hfind.
  apply ArchiveFacts.tree_ok_dir in Hok. destruct Hok as [ND Hall].
  apply ArchiveFacts.tree_ok_dir. split.
  - now rewrite (map_fst_set_entry _ _ _ _ Hfind).
  - clear ND. revert Hfind.
    induction d as [|[n x] rest IH]; simpl; [discriminate|].
    inversion Hall as [|? ? [Hn Hx] Hall']; subst.
    destruct (String.eqb n name); intros H.
    + constructor; [|assumption]. simpl. split; [assumption | exact I].
    + constructor; [now split | now apply IH].
Qed.

Lemma read_file_of_resolve top p c :
  resolve top p = Some (File c) -> read_file top p = Some c.
Proof. unfold read_file. now intros ->. Qed.

(** Reading below the working tree after the manifest was rewritten. *)
Lemma read_file_set_entry name t d c0 p :
  find_entry name d = Some (File c0) ->
  read_file (Dir (set_entry name (Some t) d)) p
  = if list_eq_dec string_dec p [name] then Some t
    else read_file (Dir d) p.
Proof.
  intros Hfind. unfold read_file.
  destruct p as [|k q]; simpl resolve.
  - destruct (list_eq_dec string_dec [] [name]); [discriminate|reflexivity].
  - rewrite (find_entry_set_entry _ _ _ _ _ Hfind).
    destruct (String.eqb k name) eqn:Ek.
    + apply String.eqb_eq in Ek. subst k. rewrite Hfind.
      destruct q as [|x q'].
      * destruct (list_eq_dec string_dec [name] [name]); [reflexivity|].
        congruence.
      * destruct (list_eq_dec string_dec (name :: x :: q') [name]);
          [discriminate|reflexivity].
    + destruct (list_eq_dec string_dec (k :: q) [name]) as [E|_];
        [|reflexivity].
      inversion E; subst. now rewrite String.eqb_refl in Ek.
Qed.

Section Contents.

Variable lib : library.
Variable flt : faults.
Variable modify : transform.

(** End to end: after a completed run on an archive that extracts to the
    tree [d], the new archive at the archive's path has the member
    [manifest.json], holding the serialized document followed by a newline,
    and otherwise exactly one member for every other file of [d], under its
    POSIX relative path and with its content. *)
Theorem rebuilt_archive_contents s d :
  fst (main lib flt modify s) = Return tt ->
  extracted lib s = Some d ->
  tree_ok (Dir d) ->
  exists str zf,
    serialized lib modify s = Some str
    /\ disk (snd (main lib flt modify s)) DEFAULT_ZIP
       = Some (zip_bytes lib zf)
    /\ NoDup (map fst zf)
    /\ forall name c,
         In (name, c) zf <->
         (name = MANIFEST /\ c = (str ++ nl)%string)
         \/ (exists p, p <> [MANIFEST] /\ name = as_posix p
                       /\ read_file (Dir d) p = Some c).
Proof.
  intros Hrun Hext Hok. unfold nl.
  destruct (completed_run_swaps lib flt modify s Hrun)
    as [d' [zf [Hrew [Hzip [Hdisk _]]]]].
  unfold rewritten, obind in Hrew.
  destruct (serialized lib modify s) as [str|] eqn:Hser; [|discriminate].
  rewrite Hext in Hrew.
  destruct (manifest_write_fault flt); [discriminate|].
  inversion Hrew; subst d'. clear Hrew.
  set (text := (str ++ String "010"%char EmptyString)%string) in *.
  assert (Hman : exists c0, find_entry MANIFEST d = Some (File c0)).
  { unfold serialized, edited, loaded, manifest_text, obind in Hser.
    rewrite Hext in Hser.
    destruct (find_entry MANIFEST d) as [[c0|]|]; try discriminate.
    now exists c0. }
  destruct Hman as [c0 Hman].
  pose proof (tree_ok_set_entry MANIFEST text d _ Hok Hman)
    as Hok'.
  pose proof (eq_trans (eq_sym Hzip)
                (ArchiveMore.rezip_directory_members _ Hok')) as Hzf.
  assert (Ezf : zf = map (member_for (Dir (set_entry MANIFEST (Some text) d)))
                         (rel_files (Dir (set_entry MANIFEST (Some text) d))))
    by exact (f_equal members Hzf).
  subst zf. clear Hzip Hzf.
  exists str. eexists. split; [reflexivity|]. split; [exact Hdisk|].
  pose proof (ArchiveFacts.rel_files_spec _ Hok') as Hspec.
  assert (Hmem : forall p c,
             read_file (Dir (set_entry MANIFEST (Some text) d)) p
             = Some c ->
             In p (rel_files
                     (Dir (set_entry MANIFEST (Some text) d)))).
  { intros p c Hp. apply Hspec. unfold read_file in Hp.
    destruct p as [|k q]; [discriminate|]. split; [discriminate|].
    destruct (resolve _ (k :: q)) as [[c'|]|]; try discriminate.
    now exists c'. }
  split.
  - rewrite map_map.
    apply Injective_map_NoDup_in; [|now apply ArchiveFacts.rel_files_NoDup].
    intros p q Hp Hq E. unfold member_for in E. cbn [fst] in E.
    revert E. apply ArchiveFacts.as_posix_inj;
      eapply ArchiveFacts.rel_files_names; eassumption.
  - intros name c. rewrite in_map_iff. split.
    + intros [p [Hp Hin]]. unfold member_for in Hp.
      apply Hspec in Hin. destruct Hin as [_ [c' Hc']].
      assert (Hread : read_file
                        (Dir (set_entry MANIFEST (Some text) d))
                        p = Some c')
        by (apply read_file_of_resolve; exact Hc').
      rewrite Hread in Hp. inversion Hp; subst name c'. clear Hp.
      rewrite (read_file_set_entry _ _ _ _ _ Hman) in Hread.
      destruct (list_eq_dec string_dec p [MANIFEST]) as [E|E].
      * left. subst p. inversion Hread. now split.
      * right. now exists p.
    + intros [[Hn Hc] | [p [Hne [Hn Hread]]]].
      * exists [MANIFEST]. subst.
        assert (Hread : read_file
                          (Dir (set_entry MANIFEST (Some text) d))
                          [MANIFEST] = Some text).
        { rewrite (read_file_set_entry _ _ _ _ _ Hman).
          destruct (list_eq_dec string_dec [MANIFEST] [MANIFEST]);
            [reflexivity | congruence]. }
        split; [|now apply (Hmem _ _ Hread)].
        unfold member_for. now rewrite Hread.
      * exists p.
        assert (Hread' : read_file
                           (Dir (set_entry MANIFEST (Some text) d))
                           p = Some c).
        { rewrite (read_file_set_entry _ _ _ _ _ Hman).
          destruct (list_eq_dec string_dec p [MANIFEST]);
            [contradiction | assumption]. }
        split; [|now apply (Hmem _ _ Hread')].
        unfold member_for. rewrite Hread'. now subst.
Qed.

End Contents.

Lemma rebuilt_archive_contents_witness :
  exists str zf,
    serialized toy_library builtin_transform (state_with "doc") = Some str
    /\ disk (snd (main toy_library no_faults builtin_transform
                    (state_with "doc"))) DEFAULT_ZIP
       = Some (zip_bytes toy_library zf)
    /\ NoDup (map fst zf)
    /\ forall name c,
         In (name, c) zf <->
         (name = MANIFEST /\ c = (str ++ nl)%string)
         \/ (exists p, p <> [MANIFEST] /\ name = as_posix p
                       /\ read_file
                            (Dir [(MANIFEST, File "doc");
                                  ("readme.txt", File "hi")]) p = Some c).
Proof.
  apply (rebuilt_archive_contents toy_library no_faults builtin_transform
           (state_with "doc")
           [(MANIFEST, File "doc"); ("readme.txt", File "hi")]).
  - vm_compute; reflexivity.
  - reflexivity.
  - ArchiveFacts.solve_tree.
Defined.

(** *** The path of the new archive *)

Lemma append_empty_r (a : string) : (a ++ "")%string = a.
Proof. induction a as [|c a IH]; simpl; [reflexivity | now rewrite IH]. Qed.

Lemma append_assoc3 (a b c : string) :
  (a ++ (b ++ c))%string = ((a ++ b) ++ c)%string.
Proof. induction a as [|x a IH]; simpl; [reflexivity | now rewrite IH]. Qed.

Lemma has_sep_append a b : has_sep (a ++ b)%string = has_sep a || has_sep b.
Proof.
  induction a as [|c a IH]; simpl; [reflexivity|].
  now rewrite IH, orb_assoc.
Qed.

Lemma rsplit_dot_spec name : forall stem suf,
  rsplit_dot name = Some (stem, suf) ->
  name = (stem ++ suf)%string /\ starts_with_dot suf = true.
Proof.
  induction name as [|c rest IH]; intros stem suf; simpl; [discriminate|].
  destruct (rsplit_dot rest) as [[st sf]|].
  - intros H. inversion H; subst.
    destruct (IH st suf eq_refl) as [E1 E2]. split; [|assumption].
    simpl. now rewrite <- E1.
  - destruct (Ascii.eqb c ".") eqn:Ec; [|discriminate].
    intros H. inversion H; subst. split; [reflexivity|].
    simpl. exact Ec.
Qed.

Lemma stem_and_suffix name :
  (name_stem name ++ name_suffix name)%string = name
  /\ (name_suffix name = "" \/ starts_with_dot (name_suffix name) = true).
Proof.
  unfold name_stem, name_suffix.
  destruct (rsplit_dot name) as [[stem suf]|] eqn:E.
  - destruct (rsplit_dot_spec _ _ _ E) as [E1 E2].
    destruct ((0 <? String.length stem)%nat && (1 <? String.length suf)%nat).
    + split; [now symmetry | now right].
    + split; [apply append_empty_r | now left].
  - split; [apply append_empty_r | now left].
Qed.

(** Line 94 for any archive path whose name is not empty and holds no
    separator: the new archive goes to the same directory, under the
    archive's full name with [.new] appended, whatever the extension. *)
Theorem new_path_appends_new zip_path s :
  path_name zip_path <> "" ->
  has_sep (path_name zip_path) = false ->
  new_path zip_path s
  = (Return (removelast zip_path
               ++ [(path_name zip_path ++ ".new")%string]), s).
Proof.
  intros Hname Hsep.
  destruct (stem_and_suffix (path_name zip_path)) as [Hsplit Hshape].
  set (suf := name_suffix (path_name zip_path)) in *.
  assert (Hsuf : has_sep suf = false).
  { rewrite <- Hsplit in Hsep. rewrite has_sep_append in Hsep.
    apply orb_false_iff in Hsep. tauto. }
  assert (Hcond : (negb (String.eqb (suf ++ ".new") "")
                   && negb (starts_with_dot (suf ++ ".new")))
                  || String.eqb (suf ++ ".new") "." = false).
  { destruct Hshape as [Hempty | Hdot].
    - rewrite Hempty. reflexivity.
    - destruct suf as [|c rest]; [discriminate|].
      simpl in Hdot. simpl. rewrite Hdot. simpl.
      destruct rest; reflexivity. }
  unfold new_path, with_suffix, path_suffix. fold suf.
  rewrite has_sep_append, Hsuf, Hcond. simpl orb.
  replace (String.eqb (path_name zip_path) "") with false
    by (symmetry; now apply String.eqb_neq).
  now rewrite append_assoc3, Hsplit.
Qed.

Lemma new_path_appends_new_witness :
  new_path ["dist"; "pack.tar.gz"] empty_state
  = (Return (removelast ["dist"; "pack.tar.gz"]
               ++ [(path_name ["dist"; "pack.tar.gz"] ++ ".new")%string]),
     empty_state).
Proof.
  apply (new_path_appends_new ["dist"; "pack.tar.gz"] empty_state);
    [discriminate | reflexivity].
Defined.

End CoordinatorMore.
